(** * spisensdrv: a shallow embedding of the SPI sensor driver

    The driver (spisensdrv.c) is a probe routine and three sysfs attribute
    callbacks over the kernel's register-map layer.  The callbacks and the
    probe routine are embedded as computations in a state-and-failure monad
    over a [world]: the kernel objects the driver touches (managed
    allocations, register maps, driver data), the sensor chips behind the
    SPI devices, the statuses the host operations complete with, and a
    trace of the host calls made. *)

From Stdlib Require Import ZArith String Ascii List Lia DecimalString.
From stdpp Require Import base option functions gmap strings list.

Local Open Scope string_scope.
Local Open Scope list_scope.
Local Open Scope Z_scope.

(** ** Machine integers *)

(** [unsigned int] is 32 bits wide: arithmetic wraps modulo 2^32. *)
Definition u32 (x : Z) : Z := x mod 2 ^ 32.

(** Conversion of a 32-bit pattern to [int] (two's complement), as happens
    when an [unsigned int] is consumed by a [%d] conversion. *)
Definition to_int (x : Z) : Z :=
  let y := u32 x in if y <? 2 ^ 31 then y else y - 2 ^ 32.

(** [size_t] and [ssize_t] are 64 bits wide.  Conversion of a [size_t] to
    [ssize_t] (two's complement), as happens when a function returning
    [ssize_t] returns a [size_t]. *)
Definition ssize_of_size (x : Z) : Z :=
  let y := x mod 2 ^ 64 in if y <? 2 ^ 63 then y else y - 2 ^ 64.

(** C's logical negation, and the truth value of a scalar in a condition. *)
Definition lnot_c (x : Z) : Z := if x =? 0 then 1 else 0.
Definition truthy (x : Z) : bool := negb (x =? 0).

(** ** Constants of the driver *)

Definition DRIVER_NAME : string := "spisensdrv".

Definition SPISENS_REG_SHIFT : Z := 4.

Definition SPISENS_REG_ID : Z := Z.shiftl 0 SPISENS_REG_SHIFT.
Definition SPISENS_REG_CTRL : Z := Z.shiftl 1 SPISENS_REG_SHIFT.
Definition SPISENS_REG_DATA : Z := Z.shiftl 2 SPISENS_REG_SHIFT.

Definition CTRL_EN_MASK : Z := 1.

Definition SPISENS_ID : Z := 0x5A.

(** Modelled from the spec: the error numbers of the host, which the
    driver names and the repository does not define. *)
Definition EIO : Z := 5.
Definition ENOMEM : Z := 12.
Definition ENODEV : Z := 19.
Definition EINVAL : Z := 22.
Definition MAX_ERRNO : Z := 4095.

(** ** Host formatting: [sprintf(buf, "%d\n", x)] *)

(** Decimal representation of an integer, as [%d] prints it. *)
Definition dec (x : Z) : string := NilZero.string_of_int (Z.to_int x).

Definition newline : string := String (ascii_of_nat 10) EmptyString.

(** Modelled from the spec: the host's [sprintf(buf, "%d\n", x)], which is
    not part of the repository.  It yields the number of characters
    written, which is the value returned, and the text put in [buf]. *)
Definition sprintf_d_nl (x : Z) : Z * string :=
  let s := String.append (dec x) newline in (Z.of_nat (String.length s), s).

(** ** Kernel objects *)

(** A device instance (an [spi_device] with its embedded [struct device]). *)
Abbreviation dev_id := nat (only parsing).

(** Pointer values, read as signed machine words: 0 is NULL, the top
    [MAX_ERRNO] values encode errors, positive values are addresses. *)
Abbreviation ptr := Z (only parsing).

(** Modelled from the spec: the host's [IS_ERR] and [PTR_ERR] macros. *)
Definition IS_ERR (p : ptr) : bool := (- MAX_ERRNO <=? p) && (p <? 0).
Definition PTR_ERR (p : ptr) : Z := p.

(** [struct spisens]: the device private data. *)
Record spisens := Spisens { regmap : ptr }.

Inductive regcache_type := REGCACHE_NONE | REGCACHE_OTHER.

(** [struct regmap_config], the fields the driver sets. *)
Record regmap_config := RegmapConfig {
  reg_bits : Z;
  reg_stride : Z;
  val_bits : Z;
  cache_type : regcache_type;
  max_register : Z;
  writeable_reg : option (dev_id -> Z -> bool);
  write_flag_mask : Z
}.

Inductive log_level := LogErr | LogInfo.

(** Host calls made by the driver, in the order they are made. *)
Inductive event :=
| CallKzalloc (d : dev_id)
| CallSetDrvdata (d : dev_id) (p : ptr)
| CallSpiSetup (d : dev_id) (bits_per_word : Z)
| CallRegmapInit (d : dev_id)
| CallRegmapRead (d : dev_id) (reg : Z)
| CallRegmapWrite (d : dev_id) (reg val : Z)
| CallSysfsCreateGroup (d : dev_id)
| Log (lvl : log_level) (d : dev_id) (msg : string).

(** The state the driver runs in. *)
Record world := World {
  w_next : positive;
    (* next fresh kernel address *)
  w_mem : gmap Z (dev_id * spisens);
    (* live managed [spisens] blocks, each with the device that owns it *)
  w_regmaps : gmap Z (dev_id * regmap_config);
    (* live register maps, each with the device that owns and backs it *)
  w_drvdata : gmap dev_id ptr;
    (* driver data pointer of each device *)
  w_sysfs : gmap dev_id (list string);
    (* names of the attributes created under each device *)
  w_chip : dev_id -> Z -> Z;
    (* register file of the sensor behind each device, by address *)
  w_status : nat -> Z;
    (* status the n-th fallible host operation completes with; 0 is success *)
  w_tick : nat;
    (* number of fallible host operations completed so far *)
  w_trace : list event
}.

Definition set_next (f : positive -> positive) (w : world) : world :=
  World (f (w_next w)) (w_mem w) (w_regmaps w) (w_drvdata w) (w_sysfs w)
        (w_chip w) (w_status w) (w_tick w) (w_trace w).
Definition set_mem (f : gmap Z (dev_id * spisens) -> gmap Z (dev_id * spisens))
    (w : world) : world :=
  World (w_next w) (f (w_mem w)) (w_regmaps w) (w_drvdata w) (w_sysfs w)
        (w_chip w) (w_status w) (w_tick w) (w_trace w).
Definition set_regmaps
    (f : gmap Z (dev_id * regmap_config) -> gmap Z (dev_id * regmap_config))
    (w : world) : world :=
  World (w_next w) (w_mem w) (f (w_regmaps w)) (w_drvdata w) (w_sysfs w)
        (w_chip w) (w_status w) (w_tick w) (w_trace w).
Definition set_drvdata (f : gmap dev_id ptr -> gmap dev_id ptr) (w : world) : world :=
  World (w_next w) (w_mem w) (w_regmaps w) (f (w_drvdata w)) (w_sysfs w)
        (w_chip w) (w_status w) (w_tick w) (w_trace w).
Definition set_sysfs (f : gmap dev_id (list string) -> gmap dev_id (list string))
    (w : world) : world :=
  World (w_next w) (w_mem w) (w_regmaps w) (w_drvdata w) (f (w_sysfs w))
        (w_chip w) (w_status w) (w_tick w) (w_trace w).
Definition set_chip (f : (dev_id -> Z -> Z) -> dev_id -> Z -> Z) (w : world) : world :=
  World (w_next w) (w_mem w) (w_regmaps w) (w_drvdata w) (w_sysfs w)
        (f (w_chip w)) (w_status w) (w_tick w) (w_trace w).
Definition set_tick (f : nat -> nat) (w : world) : world :=
  World (w_next w) (w_mem w) (w_regmaps w) (w_drvdata w) (w_sysfs w)
        (w_chip w) (w_status w) (f (w_tick w)) (w_trace w).
Definition set_trace (f : list event -> list event) (w : world) : world :=
  World (w_next w) (w_mem w) (w_regmaps w) (w_drvdata w) (w_sysfs w)
        (w_chip w) (w_status w) (w_tick w) (f (w_trace w)).

(** ** The monad of kernel code

    A computation transforms the world and yields a value, or is [None]:
    the kernel oopses on an invalid pointer dereference. *)
Definition M (A : Type) : Type := world -> option (A * world).

#[export] Instance M_ret : MRet M := fun A a w => Some (a, w).
#[export] Instance M_bind : MBind M := fun A B f m w =>
  match m w with
  | Some (a, w') => f a w'
  | None => None
  end.

Definition oops {A} : M A := fun _ => None.
Definition get {A} (f : world -> A) : M A := fun w => Some (f w, w).
Definition modify (f : world -> world) : M unit := fun w => Some (tt, f w).

Definition emit (e : event) : M unit := modify (set_trace (fun t => t ++ [e])).

(** The status the next fallible host operation completes with. *)
Definition next_status : M Z := fun w =>
  Some (w_status w (w_tick w), set_tick S w).

(** A fresh kernel address. *)
Definition fresh_addr : M ptr := fun w =>
  Some (Z.pos (w_next w), set_next Pos.succ w).

(** ** Host operations

    The kernel services the driver calls are not part of the repository.
    They are modelled here, restricted to what the driver uses of them.
    Each fallible service completes with the status the world supplies for
    it: 0 for success, anything else is handed back to the caller the way
    the service reports errors. *)

(** Modelled from the spec: the host's [ERR_PTR] macro. *)
Definition ERR_PTR (e : Z) : ptr := e.

(** Modelled from the spec: the host's [dev_get_drvdata(dev)], the driver
    data pointer of the device, NULL when none was set. *)
Definition dev_get_drvdata (d : dev_id) : M ptr :=
  get (fun w => default 0 (w_drvdata w !! d)).

(** Modelled from the spec: the host's [spi_set_drvdata(spi, data)]. *)
Definition spi_set_drvdata (d : dev_id) (p : ptr) : M unit :=
  emit (CallSetDrvdata d p);;
  modify (set_drvdata (insert d p)).

(** Modelled from the spec: the host's
    [devm_kzalloc(dev, sizeof(struct spisens), GFP_KERNEL)], a zeroed block
    owned by [d], or NULL. *)
Definition devm_kzalloc (d : dev_id) : M ptr :=
  emit (CallKzalloc d);;
  s ← next_status;
  if s =? 0 then
    p ← fresh_addr;
    modify (set_mem (insert p (d, Spisens 0)));;
    mret p
  else mret 0.

(** Modelled from the spec: the host's [devm_regmap_init_spi(spi, config)],
    a register map owned by [d] and backed by the chip behind [d], or an
    encoded error. *)
Definition devm_regmap_init_spi (d : dev_id) (cfg : regmap_config) : M ptr :=
  emit (CallRegmapInit d);;
  s ← next_status;
  if s =? 0 then
    h ← fresh_addr;
    modify (set_regmaps (insert h (d, cfg)));;
    mret h
  else mret (ERR_PTR s).

(** [data->regmap], as a load and as a store; dereferencing a pointer that
    is not a live private block oopses. *)
Definition load_regmap (data : ptr) : M ptr := fun w =>
  match w_mem w !! data with
  | Some (_, s) => Some (regmap s, w)
  | None => None
  end.

Definition store_regmap (data : ptr) (rm : ptr) : M unit := fun w =>
  match w_mem w !! data with
  | Some (o, _) => Some (tt, set_mem (insert data (o, Spisens rm)) w)
  | None => None
  end.

(** Modelled from the spec: the host dereferencing a register-map handle,
    which oopses when the handle is not a live register map. *)
Definition regmap_lookup (rm : ptr) : M (dev_id * regmap_config) := fun w =>
  match w_regmaps w !! rm with
  | Some x => Some (x, w)
  | None => None
  end.

(** Modelled from the spec: how the host's register map interprets its
    configuration: values are [val_bits] wide, registers above
    [max_register] are neither readable nor writeable, and the
    [writeable_reg] callback, when given, decides which of the others can
    be written. *)
Definition val_mask (cfg : regmap_config) : Z := Z.ones (val_bits cfg).

Definition regmap_readable (cfg : regmap_config) (reg : Z) : bool :=
  reg <=? max_register cfg.

Definition regmap_writeable (cfg : regmap_config) (d : dev_id) (reg : Z) : bool :=
  if max_register cfg <? reg then false
  else match writeable_reg cfg with
       | Some f => f d reg
       | None => true
       end.

(** Modelled from the spec: the host's [regmap_read(map, reg, &val)].  It
    yields the status and the content of [val] afterwards; [val] is
    assigned only when the read succeeds. *)
Definition regmap_read (rm : ptr) (reg : Z) (val : Z) : M (Z * Z) :=
  '(d, cfg) ← regmap_lookup rm;
  emit (CallRegmapRead d reg);;
  if negb (reg mod reg_stride cfg =? 0) then mret (- EINVAL, val)
  else if negb (regmap_readable cfg reg) then mret (- EIO, val)
  else
    s ← next_status;
    if s =? 0 then
      c ← get (fun w => w_chip w d reg);
      mret (0, Z.land c (val_mask cfg))
    else mret (s, val).

(** Modelled from the spec: the host's [regmap_write(map, reg, val)].  It
    yields the status; the chip register changes only when the register is
    writeable and the bus transfer succeeds. *)
Definition regmap_write (rm : ptr) (reg : Z) (val : Z) : M Z :=
  '(d, cfg) ← regmap_lookup rm;
  emit (CallRegmapWrite d reg val);;
  if negb (reg mod reg_stride cfg =? 0) then mret (- EINVAL)
  else if negb (regmap_writeable cfg d reg) then mret (- EIO)
  else
    s ← next_status;
    if s =? 0 then
      modify (set_chip (fun c =>
        <[d := <[reg := Z.land val (val_mask cfg)]> (c d)]> c));;
      mret 0
    else mret s.

(** Modelled from the spec: the host's [spi_setup(spi)], called with
    [spi->bits_per_word] set as given; the driver ignores its result. *)
Definition spi_setup (d : dev_id) (bits_per_word : Z) : M unit :=
  emit (CallSpiSetup d bits_per_word).

(** Modelled from the spec: the host's [dev_err] and [dev_info]. *)
Definition dev_err (d : dev_id) (msg : string) : M unit := emit (Log LogErr d msg).
Definition dev_info (d : dev_id) (msg : string) : M unit := emit (Log LogInfo d msg).

(** A sysfs device attribute: name, mode, and the callbacks it has.  A
    [show] callback takes the device and the entry content of its
    uninitialised local and yields the return value and the text put in
    the buffer; a [store] callback takes the device, the buffer, [count]
    and the entry contents of its two uninitialised locals. *)
Record device_attribute := DeviceAttribute {
  attr_name : string;
  attr_mode : Z;
  attr_show : option (dev_id -> Z -> M (Z * string));
  attr_store : option (dev_id -> string -> Z -> Z -> Z -> M Z)
}.

Record attribute_group := AttributeGroup { attrs : list device_attribute }.

(** Modelled from the spec: the host's
    [sysfs_create_group(&dev->kobj, grp)]; on success the attributes of the
    group exist under the device. *)
Definition sysfs_create_group (d : dev_id) (grp : attribute_group) : M Z :=
  emit (CallSysfsCreateGroup d);;
  s ← next_status;
  (if s =? 0 then modify (set_sysfs (insert d (attr_name <$> attrs grp)))
   else mret tt);;
  mret s.

(** ** The driver *)

Definition spisens_regmap_is_writeable (dev : dev_id) (reg : Z) : bool :=
  reg =? SPISENS_REG_CTRL.

Definition BIT (n : Z) : Z := Z.shiftl 1 n.

Definition spisens_regmap_config : regmap_config :=
  {| reg_bits := 8;
     reg_stride := SPISENS_REG_SHIFT;
     val_bits := 8;
     cache_type := REGCACHE_NONE;
     max_register := SPISENS_REG_DATA;
     writeable_reg := Some spisens_regmap_is_writeable;
     write_flag_mask := BIT 7 |}.

(** Enable device getter.  [enable] is the content of the local of that
    name at entry: the function does not initialise it. *)
Definition enable_show (dev : dev_id) (enable : Z) : M (Z * string) :=
  data ← dev_get_drvdata dev;
  rm ← load_regmap data;
  '(err, enable) ← regmap_read rm SPISENS_REG_CTRL enable;
  let enable := Z.land enable CTRL_EN_MASK in
  mret (sprintf_d_nl (lnot_c (lnot_c enable))).

(** Return temperature in millicelsius.  [temperature] is the content of
    the uninitialised local at entry. *)
Definition data_show (dev : dev_id) (temperature : Z) : M (Z * string) :=
  data ← dev_get_drvdata dev;
  rm ← load_regmap data;
  '(err, temperature) ← regmap_read rm SPISENS_REG_DATA temperature;
  let temperature := u32 (temperature * 1000) in
  let temperature := Z.shiftr temperature 1 in
  mret (sprintf_d_nl (to_int temperature)).

(** A reference [sscanf(buf, "%d", &x)] for running examples: leading white
    space is skipped, then an optional minus sign and decimal digits up to
    the first other character are converted, and the value is stored as an
    [int]; without a digit nothing is converted. *)
Definition is_space (c : ascii) : bool :=
  let n := Z.of_nat (nat_of_ascii c) in
  (n =? 32) || ((9 <=? n) && (n <=? 13)).

Fixpoint skip_spaces (s : string) : string :=
  match s with
  | String c r => if is_space c then skip_spaces r else s
  | EmptyString => s
  end.

Fixpoint scan_digits (s : string) (acc : option Z) : option Z :=
  match s with
  | String c r =>
      let n := Z.of_nat (nat_of_ascii c) in
      if (48 <=? n) && (n <=? 57)
      then scan_digits r (Some (default 0 acc * 10 + (n - 48)))
      else acc
  | EmptyString => acc
  end.

Definition scan_dec (s : string) : option Z :=
  match skip_spaces s with
  | String "-" r => (fun n => to_int (- n)) <$> scan_digits r None
  | r => to_int <$> scan_digits r None
  end.

Section Driver.

(** The host's [sscanf(buf, "%d", &x)], which is not part of the
    repository, is a parameter: [Some n] when an [int] [n] is converted
    and stored in [x], [None] when nothing is converted and [x] is left as
    it was. *)
Variable sscanf_d : string -> option Z.

(** Enable device setter.  [ctrl] and [enable] are the contents of the
    uninitialised locals at entry; [count] is a [size_t], returned as an
    [ssize_t]. *)
Definition enable_store (dev : dev_id) (buf : string) (count : Z)
    (ctrl enable : Z) : M Z :=
  data ← dev_get_drvdata dev;
  rm ← load_regmap data;
  '(err, ctrl) ← regmap_read rm SPISENS_REG_CTRL ctrl;
  let enable := default enable (sscanf_d buf) in
  let ctrl :=
    if truthy (lnot_c enable)
    then Z.land ctrl (u32 (Z.lnot CTRL_EN_MASK))
    else Z.lor ctrl CTRL_EN_MASK in
  err ← regmap_write rm SPISENS_REG_CTRL ctrl;
  if err <? 0 then mret err
  else mret (ssize_of_size count).

(** [DEVICE_ATTR_RW(enable)] and [DEVICE_ATTR_RO(data)]. *)
Definition dev_attr_enable : device_attribute :=
  {| attr_name := "enable"; attr_mode := 420 (* 0644 *);
     attr_show := Some enable_show; attr_store := Some enable_store |}.

Definition dev_attr_data : device_attribute :=
  {| attr_name := "data"; attr_mode := 292 (* 0444 *);
     attr_show := Some data_show; attr_store := None |}.

Definition spisens_attrs : list device_attribute :=
  [dev_attr_enable; dev_attr_data].

Definition spisens_group : attribute_group := {| attrs := spisens_attrs |}.

(** Driver probe function.  [regval] is the content of the uninitialised
    local at entry. *)
Definition spisens_probe (spi : dev_id) (regval : Z) : M Z :=
  data ← devm_kzalloc spi;
  if data =? 0 then mret (- ENOMEM)
  else
    spi_set_drvdata spi data;;
    spi_setup spi 8;;
    rm ← devm_regmap_init_spi spi spisens_regmap_config;
    store_regmap data rm;;
    if IS_ERR rm then
      dev_err spi (String.append "failed to allocate register map" newline);;
      mret (to_int (PTR_ERR rm))
    else
      '(status, regval) ← regmap_read rm SPISENS_REG_ID regval;
      if status <? 0 then
        dev_err spi (String.append "error reading ID register" newline);;
        mret status
      else if negb (regval =? SPISENS_ID) then
        dev_err spi (String.append "unexpected ID" newline);;
        mret (- ENODEV)
      else
        status ← sysfs_create_group spi spisens_group;
        (if truthy status then dev_info spi (String.append "Cannot create sysfs" newline)
         else mret tt);;
        mret 0.

End Driver.

(** ** Driver core: attach and detach

    The driver has no remove routine and frees nothing itself: what
    happens when a device detaches is the host's doing, and is not part of
    the repository. *)

(** A managed resource is owned by device [d]. *)
Definition owned_by (d : dev_id) {A} (kv : Z * (dev_id * A)) : Prop := kv.2.1 = d.

#[export] Instance owned_by_dec d {A} (kv : Z * (dev_id * A)) : Decision (owned_by d kv).
Proof. unfold owned_by. apply _. Defined.

(** Modelled from the spec: the host releasing the managed resources of a
    device, which the repository does not contain; the spec has the
    private state "released automatically when the device detaches". *)
Definition devres_release_all (d : dev_id) : M unit :=
  modify (set_mem (filter (fun kv => ¬ owned_by d kv)));;
  modify (set_regmaps (filter (fun kv => ¬ owned_by d kv))).

(** Modelled from the spec: the host detaching a device, which the
    repository does not contain: the resources the device owns are
    released and its driver data pointer is cleared. *)
Definition driver_detach (d : dev_id) : M unit :=
  devres_release_all d;;
  modify (set_drvdata (delete d)).

(** Modelled from the spec: the host attaching a device, which the
    repository does not contain: it calls the probe routine, and a nonzero
    result aborts the attach, which undoes what the probe did as a detach
    would. *)
Definition driver_attach (probe : dev_id -> Z -> M Z) (d : dev_id) (regval : Z) : M Z :=
  ret ← probe d regval;
  if truthy ret then driver_detach d;; mret ret
  else mret 0.

(** A world to run examples in: nothing allocated, every host operation
    succeeding, and behind every device a chip with ID 0x5A, CTRL 0xA4
    and DATA 37. *)
Definition chip0 (reg : Z) : Z :=
  if reg =? SPISENS_REG_ID then 90
  else if reg =? SPISENS_REG_CTRL then 164
  else if reg =? SPISENS_REG_DATA then 37
  else 0.

Definition boot : world :=
  World 1%positive ∅ ∅ ∅ ∅ (fun _ => chip0) (fun _ => 0) 0%nat [].

(** The same world with the host operations completing with the given
    statuses, in order, and with success after them. *)
Definition boot_with (statuses : list Z) : world :=
  World 1%positive ∅ ∅ ∅ ∅ (fun _ => chip0) (fun n => nth n statuses 0) 0%nat [].

(** The world once device 0 is attached, with the host operations to come
    completing with the given statuses. *)
Definition attached_with (statuses : list Z) : world :=
  World 3%positive {[1 := (0%nat, Spisens 2)]}
        {[2 := (0%nat, spisens_regmap_config)]}
        {[0%nat := 1]} {[0%nat := ["enable"; "data"]]}
        (fun _ => chip0) (fun n => nth n statuses 0) 0%nat [].

(** ** Vocabulary of the specification *)

(** The register map a callback reaches from its device: the first two
    lines of every attribute callback. *)
Definition private_regmap (dev : dev_id) : M ptr :=
  data ← dev_get_drvdata dev;
  load_regmap data.

(** Device [d] is attached with handle [h]: its driver data points to a
    live private block it owns, whose one field is [h], a live register
    map that [d] owns. *)
Definition attached (w : world) (d : dev_id) (h : ptr) : Prop :=
  ∃ p cfg, w_drvdata w !! d = Some p ∧
           w_mem w !! p = Some (d, Spisens h) ∧
           w_regmaps w !! h = Some (d, cfg).

(** The same, for a register map made from the driver's own config. *)
Definition bound (w : world) (d : dev_id) (h : ptr) : Prop :=
  ∃ p, w_drvdata w !! d = Some p ∧
       w_mem w !! p = Some (d, Spisens h) ∧
       w_regmaps w !! h = Some (d, spisens_regmap_config).

(** The handle stored in the private state of [d], if [d] has one. *)
Definition handle_of (w : world) (d : dev_id) : option ptr :=
  p ← w_drvdata w !! d;
  blk ← w_mem w !! p;
  Some (regmap blk.2).

(** Addresses handed out so far lie below [w_next]. *)
Definition wf (w : world) : Prop :=
  (∀ p, is_Some (w_mem w !! p) → p < Z.pos (w_next w)) ∧
  (∀ h, is_Some (w_regmaps w !! h) → h < Z.pos (w_next w)).

(** Every device that has driver data is attached. *)
Definition all_attached (w : world) : Prop :=
  ∀ d p, w_drvdata w !! d = Some p → ∃ h, attached w d h.

(** A world before any device is attached. *)
Definition pristine (w : world) : Prop :=
  w_mem w = ∅ ∧ w_regmaps w = ∅ ∧ w_drvdata w = ∅ ∧
  ∀ n, - MAX_ERRNO ≤ w_status w n ≤ 0.

(** The word [enable_store] hands to [regmap_write] when [sscanf] stored
    [n] and the local [ctrl] holds [c] after the read. *)
Definition ctrl_word (n c : Z) : Z :=
  if truthy (lnot_c n)
  then Z.land c (u32 (Z.lnot CTRL_EN_MASK))
  else Z.lor c CTRL_EN_MASK.

(** The host calls every probe makes once its private block is allocated
    at [p], up to the creation of the register map. *)
Definition probe_calls (spi : dev_id) (p : ptr) : list event :=
  [CallKzalloc spi; CallSetDrvdata spi p; CallSpiSetup spi 8; CallRegmapInit spi].

(** The world [w'] a probe of [spi] leaves behind, started in [w], once it
    got its private block: the block holds [rm]; [live] tells whether [rm]
    is a register map that was created, [sysfs] whether the attribute
    group was; [ticks] host operations completed and [t] was traced. *)
Definition probe_post (w w' : world) (spi : dev_id) (rm : ptr)
    (live sysfs : bool) (ticks : nat) (t : list event) : Prop :=
  w_next w' = (if live then Pos.succ (Pos.succ (w_next w)) else Pos.succ (w_next w)) ∧
  w_mem w' = <[Z.pos (w_next w) := (spi, Spisens rm)]> (w_mem w) ∧
  w_regmaps w' = (if live then <[rm := (spi, spisens_regmap_config)]> (w_regmaps w)
                  else w_regmaps w) ∧
  w_drvdata w' = <[spi := Z.pos (w_next w)]> (w_drvdata w) ∧
  w_sysfs w' = (if sysfs then <[spi := ["enable"; "data"]]> (w_sysfs w)
                else w_sysfs w) ∧
  w_chip w' = w_chip w ∧
  w_status w' = w_status w ∧
  w_tick w' = (ticks + w_tick w)%nat ∧
  w_trace w' = w_trace w ++ t.

(** The ways an attach can fail. *)
Inductive failure :=
| KzallocFails
| RegmapInitFails (e : Z)
| IdReadFails (e : Z)
| UnexpectedId (v : Z).

(** The world makes the probe of [spi] meet failure [f]. *)
Definition fails (w : world) (spi : dev_id) (f : failure) : Prop :=
  let t := w_tick w in
  match f with
  | KzallocFails => w_status w t ≠ 0
  | RegmapInitFails e =>
      w_status w t = 0 ∧ w_status w (S t) = e ∧ - MAX_ERRNO ≤ e < 0
  | IdReadFails e =>
      w_status w t = 0 ∧ w_status w (S t) = 0 ∧ w_status w (S (S t)) = e ∧ e < 0
  | UnexpectedId v =>
      w_status w t = 0 ∧ w_status w (S t) = 0 ∧ w_status w (S (S t)) = 0 ∧
      Z.land (w_chip w spi SPISENS_REG_ID) 255 = v ∧ v ≠ SPISENS_ID
  end.

Definition failure_code (f : failure) : Z :=
  match f with
  | KzallocFails => - ENOMEM
  | RegmapInitFails e => e
  | IdReadFails e => e
  | UnexpectedId _ => - ENODEV
  end.

(** The host calls of a probe that meets failure [f], its private block
    being at [p]. *)
Definition failure_trace (spi : dev_id) (p : ptr) (f : failure) : list event :=
  match f with
  | KzallocFails => [CallKzalloc spi]
  | RegmapInitFails _ =>
      probe_calls spi p ++
      [Log LogErr spi ("failed to allocate register map" +:+ newline)]
  | IdReadFails _ =>
      probe_calls spi p ++
      [CallRegmapRead spi SPISENS_REG_ID;
       Log LogErr spi ("error reading ID register" +:+ newline)]
  | UnexpectedId _ =>
      probe_calls spi p ++
      [CallRegmapRead spi SPISENS_REG_ID;
       Log LogErr spi ("unexpected ID" +:+ newline)]
  end.

(** The kernel objects of two worlds are the same. *)
Definition same_objects (w w' : world) : Prop :=
  w_next w' = w_next w ∧ w_mem w' = w_mem w ∧ w_regmaps w' = w_regmaps w ∧
  w_drvdata w' = w_drvdata w ∧ w_sysfs w' = w_sysfs w.

(** What the host may ask of the driver. *)
Inductive action :=
| Attach (d : dev_id) (regval : Z)
| Detach (d : dev_id)
| EnableShow (d : dev_id) (enable : Z)
| EnableStore (d : dev_id) (buf : string) (count : Z) (ctrl enable : Z)
| DataShow (d : dev_id) (temperature : Z).

(** The actions that begin or end the attachment of [d]. *)
Definition rebinds (a : action) (d : dev_id) : Prop :=
  match a with
  | Attach d' _ | Detach d' => d' = d
  | _ => False
  end.

(** Host calls of a trace that write a register, as (register, value). *)
Definition writes_of (t : list event) : list (Z * Z) :=
  omap (fun e => match e with
                 | CallRegmapWrite _ reg val => Some (reg, val)
                 | _ => None
                 end) t.

(** Two host calls are the same allocation, or a transaction on the same
    register. *)
Definition same_call (e1 e2 : event) : bool :=
  match e1, e2 with
  | CallKzalloc _, CallKzalloc _ => true
  | CallRegmapInit _, CallRegmapInit _ => true
  | CallRegmapRead _ r1, CallRegmapRead _ r2 => r1 =? r2
  | CallRegmapWrite _ r1 _, CallRegmapWrite _ r2 _ => r1 =? r2
  | _, _ => false
  end.

(** No allocation and no register transaction occurs twice in a trace. *)
Fixpoint no_retry (t : list event) : bool :=
  match t with
  | [] => true
  | e :: r => negb (existsb (same_call e) r) && no_retry r
  end.

(** A computation keeps a relation between the world it starts in and the
    world it ends in. *)
Definition preserves {A} (R : world -> world -> Prop) (m : M A) : Prop :=
  ∀ w a w', m w = Some (a, w') → R w w'.

(** Between two worlds no chip register other than CTRL changed, and the
    register writes asked for in between were all of CTRL. *)
Definition ctrl_only (w w' : world) : Prop :=
  (∀ d reg, reg ≠ SPISENS_REG_CTRL → w_chip w' d reg = w_chip w d reg) ∧
  ∃ t, w_trace w' = w_trace w ++ t ∧
       Forall (fun rv => rv.1 = SPISENS_REG_CTRL) (writes_of t).

(** Between two worlds the kernel objects and the statuses to come are the
    same. *)
Definition objects_kept (w w' : world) : Prop :=
  same_objects w w' ∧ w_status w' = w_status w.

(** The host completes its operations with 0 or a negative error number. *)
Definition sane_statuses (w : world) : Prop :=
  ∀ n, - MAX_ERRNO ≤ w_status w n ≤ 0.

(** The invariant of the worlds the host brings about. *)
Definition consistent (w : world) : Prop :=
  wf w ∧ sane_statuses w ∧ all_attached w.

Section Lifecycle.

Variable sscanf_d : string -> option Z.

(** Running an action, its result dropped. *)
Definition act (a : action) : M unit :=
  match a with
  | Attach d regval => driver_attach (spisens_probe sscanf_d) d regval;; mret tt
  | Detach d => driver_detach d
  | EnableShow d enable => enable_show d enable;; mret tt
  | EnableStore d buf count ctrl enable =>
      enable_store sscanf_d d buf count ctrl enable;; mret tt
  | DataShow d temperature => data_show d temperature;; mret tt
  end.

(** Worlds the host can bring about from a pristine one. *)
Inductive reachable : world -> Prop :=
| reach_pristine w : pristine w -> reachable w
| reach_step w a w' : reachable w -> act a w = Some (tt, w') -> reachable w'.

End Lifecycle.

(** ** The driver structure *)

(** [struct spi_driver], the fields the driver sets, and the remove
    callback, which it does not set. *)
Record spi_driver := SpiDriver {
  drv_name : string;
  of_match_table : list string;
  drv_probe : dev_id -> Z -> M Z;
  drv_remove : option (dev_id -> M unit);
  id_table : list (string * Z)
}.

(** Device tree match table. *)
Definition spisens_of_match : list string := ["mistra,spisens"].

Definition spisens_id : list (string * Z) := [("spisens", 0)].

Definition spisens_driver (sscanf_d : string -> option Z) : spi_driver :=
  {| drv_name := DRIVER_NAME;
     of_match_table := spisens_of_match;
     drv_probe := spisens_probe sscanf_d;
     drv_remove := None;
     id_table := spisens_id |}.

(** Modelled from the spec: the host binding a registered driver to a
    device, which the repository does not contain: it attaches through
    the probe callback of the driver. *)
Definition driver_bind (drv : spi_driver) (d : dev_id) (regval : Z) : M Z :=
  driver_attach (drv_probe drv) d regval.

(** Modelled from the spec: the host unbinding a registered driver from a
    device, which the repository does not contain: it calls the remove
    callback when the driver has one, and then detaches the device. *)
Definition driver_unbind (drv : spi_driver) (d : dev_id) : M unit :=
  match drv_remove drv with
  | Some remove => remove d
  | None => mret tt
  end;;
  driver_detach d.

(** NULL is not the address of a live private block. *)
Definition null_free (w : world) : Prop := w_mem w !! 0 = None.

(** A host call that is no register write, and no register read other
    than one of ID. *)
Definition id_read_at_most (e : event) : Prop :=
  match e with
  | CallRegmapWrite _ _ _ => False
  | CallRegmapRead _ reg => reg = SPISENS_REG_ID
  | _ => True
  end.

(** Between two worlds no chip register changed, and the register
    transactions asked for in between were reads of ID. *)
Definition chips_untouched (w w' : world) : Prop :=
  w_chip w' = w_chip w ∧
  ∃ t, w_trace w' = w_trace w ++ t ∧ Forall id_read_at_most t.

(** * Properties *)

(** ** Proof tactics *)

(** Unfolding the monad, and splitting on the conditions a computation
    tests. *)
Ltac unfold_monad :=
  unfold mbind, M_bind, mret, M_ret, emit, modify, get, next_status,
    fresh_addr, oops in *.

Ltac split_ifs :=
  repeat (cbn;
          match goal with
          | |- context [if ?b then _ else _] => destruct b eqn:?
          end);
  cbn.

(** Unfolding the probe routine down to the register read, which is
    handled by its own lemma. *)
Ltac unfold_probe :=
  unfold spisens_probe, devm_kzalloc, spi_set_drvdata, spi_setup,
    devm_regmap_init_spi, store_regmap, sysfs_create_group, dev_err, dev_info;
  unfold_monad.

(** Projections of updated worlds, and tests on known values. *)
Ltac simpl_world :=
  cbn [w_next w_mem w_regmaps w_drvdata w_sysfs w_chip w_status w_tick w_trace
       set_next set_mem set_regmaps set_drvdata set_sysfs set_chip set_tick
       set_trace].

Ltac simpl_test :=
  cbn [Z.eqb Z.ltb Z.leb Z.compare Z.opp andb negb IS_ERR MAX_ERRNO ERR_PTR
       PTR_ERR truthy].

(** ** The model at work *)

Example dec_examples :
  dec 0 = "0" /\ dec 18500 = "18500" /\ dec 127500 = "127500" /\ dec (-5) = "-5".
Proof. repeat split; reflexivity. Qed.

Example scan_dec_examples :
  scan_dec "1" = Some 1 /\ scan_dec "0" = Some 0 /\ scan_dec " -12x" = Some (-12) /\
  scan_dec "on" = None /\ scan_dec "4294967296" = Some 0.
Proof. repeat split; reflexivity. Qed.

Example registers :
  SPISENS_REG_ID = 0 /\ SPISENS_REG_CTRL = 16 /\ SPISENS_REG_DATA = 32.
Proof. repeat split; reflexivity. Qed.

(** Probing device 0 in the boot world attaches it: the kernel objects are
    those of [attached_with]. *)
Example probe_boot :
  exists w',
    spisens_probe scan_dec 0 7 boot = Some (0, w') /\
    same_objects (attached_with []) w' /\
    w_trace w' = probe_calls 0 1 ++
                 [CallRegmapRead 0 SPISENS_REG_ID; CallSysfsCreateGroup 0].
Proof.
  eexists. split; [vm_compute; reflexivity|].
  split; [repeat split; vm_compute; reflexivity | reflexivity].
Qed.

(** Reading back after a store: "1" sets bit 0 of CTRL 0xA4, giving 0xA5,
    and the other registers show as they are. *)
Example store_then_show :
  exists w1 w2 w3,
    enable_store scan_dec 0 "1" 2 7 7 (attached_with []) = Some (2, w1) /\
    w_chip w1 0%nat SPISENS_REG_CTRL = 165 /\
    enable_show 0 7 w1 = Some ((2, "1" +:+ newline), w2) /\
    data_show 0 7 w2 = Some ((6, "18500" +:+ newline), w3).
Proof.
  pose (w1 := from_option snd boot
                (enable_store scan_dec 0 "1" 2 7 7 (attached_with []))).
  pose (w2 := from_option snd boot (enable_show 0 7 w1)).
  pose (w3 := from_option snd boot (data_show 0 7 w2)).
  exists w1, w2, w3.
  split; [vm_compute; reflexivity|]. split; [vm_compute; reflexivity|].
  split; vm_compute; reflexivity.
Qed.

(** A [count] of SIZE_MAX comes back as -1. *)
Example store_size_max :
  exists w',
    enable_store scan_dec 0 "1" (2 ^ 64 - 1) 7 7 (attached_with []) = Some (-1, w').
Proof.
  pose (w' := from_option snd boot
                (enable_store scan_dec 0 "1" (2 ^ 64 - 1) 7 7 (attached_with []))).
  exists w'. vm_compute. reflexivity.
Qed.

(** ** Integer facts *)

Lemma u32_small x : 0 <= x < 2 ^ 32 -> u32 x = x.
Proof. intros H. unfold u32. apply Z.mod_small. exact H. Qed.

Lemma to_int_small x : 0 <= x < 2 ^ 31 -> to_int x = x.
Proof.
  intros H. unfold to_int. rewrite u32_small by lia.
  destruct (Z.ltb_spec x (2 ^ 31)); lia.
Qed.

Lemma to_int_errno e : - MAX_ERRNO <= e < 0 -> to_int e = e.
Proof.
  unfold MAX_ERRNO, to_int, u32. intros H.
  replace (e mod 2 ^ 32) with (e + 2 ^ 32).
  - destruct (Z.ltb_spec (e + 2 ^ 32) (2 ^ 31)); lia.
  - apply Z.mod_unique with (q := -1); lia.
Qed.

(** The scaling of [data_show]: multiply by 1000 in 32 bits, halve, and
    read the result as an [int]. *)
Lemma scale_exact v :
  0 <= v <= 255 -> to_int (Z.shiftr (u32 (v * 1000)) 1) = v * 500.
Proof.
  intros H. rewrite u32_small by lia.
  rewrite Z.shiftr_div_pow2 by lia.
  replace (v * 1000) with (v * 500 * 2 ^ 1) by lia.
  rewrite Z.div_mul by lia. apply to_int_small. lia.
Qed.

Lemma ssize_of_size_small x : 0 <= x < 2 ^ 63 -> ssize_of_size x = x.
Proof.
  intros H. unfold ssize_of_size. rewrite Z.mod_small by lia.
  destruct (Z.ltb_spec x (2 ^ 63)); lia.
Qed.

Lemma land_mask_bit0 c : Z.land c CTRL_EN_MASK = if Z.testbit c 0 then 1 else 0.
Proof.
  unfold CTRL_EN_MASK. change 1 with (Z.ones 1).
  rewrite Z.land_ones by lia. change (2 ^ 1) with 2.
  rewrite <- Z.bit0_mod. destruct (Z.testbit c 0); reflexivity.
Qed.

Lemma land_byte_range x : 0 <= Z.land x 255 < 2 ^ 8.
Proof.
  change 255 with (Z.ones 8). rewrite Z.land_ones by lia.
  apply Z.mod_pos_bound. lia.
Qed.

(** ** Running the monad *)

Lemma bind_Some {A B} (m : M A) (k : A -> M B) w a w1 :
  m w = Some (a, w1) -> (m ≫= k) w = k a w1.
Proof. intros H. unfold mbind, M_bind. rewrite H. reflexivity. Qed.

Lemma bind_inv {A B} (m : M A) (k : A -> M B) w b w' :
  (m ≫= k) w = Some (b, w') ->
  exists a w1, m w = Some (a, w1) /\ k a w1 = Some (b, w').
Proof.
  unfold mbind, M_bind. destruct (m w) as [[a w1]|]; [|discriminate].
  intros H. exists a, w1. split; [reflexivity | exact H].
Qed.

Lemma private_regmap_same dev w rm w1 :
  private_regmap dev w = Some (rm, w1) -> w1 = w.
Proof.
  unfold private_regmap, mbind, M_bind, dev_get_drvdata, get, load_regmap.
  destruct (w_mem w !! _) as [[o s]|]; [|discriminate].
  intros H. injection H as _ <-. reflexivity.
Qed.

(** Every attribute callback begins by fetching its register map. *)
Lemma callback_prefix {A} dev (k : ptr -> M A) w rm :
  private_regmap dev w = Some (rm, w) ->
  (data ← dev_get_drvdata dev; rm ← load_regmap data; k rm) w = k rm w.
Proof.
  unfold private_regmap, mbind, M_bind, dev_get_drvdata, get, load_regmap.
  destruct (w_mem w !! _) as [[o s]|]; [|discriminate].
  intros H. injection H as <-. reflexivity.
Qed.

Lemma bound_private_regmap w d h :
  bound w d h -> private_regmap d w = Some (h, w).
Proof.
  intros (p & Hd & Hm & _).
  unfold private_regmap, mbind, M_bind, dev_get_drvdata, get, load_regmap.
  rewrite Hd. simpl. rewrite Hm. reflexivity.
Qed.

(** ** The [data] attribute *)

(** C1: when reading the DATA register yields the 8-bit value [v],
    [data_show] puts the decimal representation of [v * 500] and a newline
    in the buffer and returns its length. *)
Theorem data_show_scales_by_500 dev temperature w rm v w' :
  0 <= v <= 255 ->
  private_regmap dev w = Some (rm, w) ->
  regmap_read rm SPISENS_REG_DATA temperature w = Some ((0, v), w') ->
  data_show dev temperature w =
    Some ((Z.of_nat (String.length (dec (v * 500) +:+ newline)),
           dec (v * 500) +:+ newline), w').
Proof.
  intros Hv Hrm Hread. unfold data_show.
  rewrite (callback_prefix dev _ w rm Hrm).
  rewrite (bind_Some _ _ _ _ _ Hread). cbn beta iota.
  rewrite scale_exact by exact Hv. reflexivity.
Qed.

Lemma data_show_scales_by_500_witness :
  private_regmap 0 (attached_with []) = Some (2, attached_with []) /\
  data_show 0 99 (attached_with []) =
    Some ((6, "18500" +:+ newline),
          set_tick S (set_trace (fun t => t ++ [CallRegmapRead 0 SPISENS_REG_DATA])
                                (attached_with []))).
Proof.
  split; [reflexivity|].
  apply (data_show_scales_by_500 0 99 (attached_with []) 2 37);
    [lia | reflexivity | reflexivity].
Defined.

(** ** The [enable] attribute, read side *)

Lemma double_negation_bit c :
  lnot_c (lnot_c (Z.land c CTRL_EN_MASK)) = if Z.testbit c 0 then 1 else 0.
Proof. rewrite land_mask_bit0. destruct (Z.testbit c 0); reflexivity. Qed.

(** C5: when reading the CTRL register yields [c], [enable_show] puts "1"
    and a newline in the buffer if bit 0 of [c] is set and "0" and a
    newline if it is clear, whatever the other bits of [c] are. *)
Theorem enable_show_reports_bit0 dev enable w rm c w' :
  private_regmap dev w = Some (rm, w) ->
  regmap_read rm SPISENS_REG_CTRL enable w = Some ((0, c), w') ->
  enable_show dev enable w =
    Some ((2, (if Z.testbit c 0 then "1" else "0") +:+ newline), w').
Proof.
  intros Hrm Hread. unfold enable_show.
  rewrite (callback_prefix dev _ w rm Hrm).
  rewrite (bind_Some _ _ _ _ _ Hread). cbn beta iota.
  rewrite double_negation_bit. destruct (Z.testbit c 0); reflexivity.
Qed.

Lemma enable_show_reports_bit0_witness :
  private_regmap 0 (attached_with []) = Some (2, attached_with []) /\
  enable_show 0 99 (attached_with []) =
    Some ((2, "0" +:+ newline),
          set_tick S (set_trace (fun t => t ++ [CallRegmapRead 0 SPISENS_REG_CTRL])
                                (attached_with []))).
Proof.
  split; [reflexivity|].
  apply (enable_show_reports_bit0 0 99 (attached_with []) 2 164);
    reflexivity.
Defined.

(** ** Register transactions *)

Lemma same_objects_refl w : same_objects w w.
Proof. repeat split. Qed.

Lemma same_objects_trans w1 w2 w3 :
  same_objects w1 w2 -> same_objects w2 w3 -> same_objects w1 w3.
Proof.
  intros (A1 & A2 & A3 & A4 & A5) (B1 & B2 & B3 & B4 & B5).
  repeat split; congruence.
Qed.

(** What a register read does to the world, whatever its outcome. *)
Lemma regmap_read_inv rm reg val w st v w' :
  regmap_read rm reg val w = Some ((st, v), w') ->
  exists d cfg,
    w_regmaps w !! rm = Some (d, cfg) /\
    (st <> 0 -> v = val) /\
    same_objects w w' /\
    w_chip w' = w_chip w /\
    w_status w' = w_status w /\
    w_trace w' = w_trace w ++ [CallRegmapRead d reg].
Proof.
  unfold regmap_read, regmap_lookup. unfold_monad.
  destruct (w_regmaps w !! rm) as [[d cfg]|] eqn:E; [|discriminate].
  intros H. exists d, cfg. split; [reflexivity|]. revert H.
  split_ifs; intros H; injection H as <- <- <-;
    (split; [try congruence; intros; reflexivity | repeat split]).
Qed.

(** A register read through a live register map always returns. *)
Lemma regmap_read_total rm reg val w d cfg :
  w_regmaps w !! rm = Some (d, cfg) ->
  exists st v w', regmap_read rm reg val w = Some ((st, v), w').
Proof.
  intros E. unfold regmap_read, regmap_lookup. unfold_monad.
  rewrite E. split_ifs; eauto.
Qed.

(** What a register write does to the world: the chip changes only when
    the map accepts the register and the transfer succeeds. *)
Lemma regmap_write_inv rm reg val w st w' :
  regmap_write rm reg val w = Some (st, w') ->
  exists d cfg,
    w_regmaps w !! rm = Some (d, cfg) /\
    same_objects w w' /\
    w_status w' = w_status w /\
    w_trace w' = w_trace w ++ [CallRegmapWrite d reg val] /\
    ((st <> 0 /\ w_chip w' = w_chip w) \/
     (st = 0 /\ regmap_writeable cfg d reg = true /\
      w_chip w' = <[d := <[reg := Z.land val (val_mask cfg)]> (w_chip w d)]> (w_chip w))).
Proof.
  unfold regmap_write, regmap_lookup. unfold_monad.
  destruct (w_regmaps w !! rm) as [[d cfg]|] eqn:E; [|discriminate].
  intros H. exists d, cfg. split; [reflexivity|]. revert H.
  split_ifs; intros H; injection H as <- <-;
    (split; [repeat split|]); (split; [reflexivity|]);
    (split; [reflexivity|]).
  - left. split; [unfold EINVAL; lia | reflexivity].
  - left. split; [unfold EIO; lia | reflexivity].
  - right. repeat split.
    destruct (regmap_writeable cfg d reg); [reflexivity | discriminate].
  - left. split; [|reflexivity].
    intros H0. rewrite H0 in *. discriminate.
Qed.

(** ** The show callbacks and the status of their read *)

Lemma length_append_newline s :
  String.length (s +:+ newline) = S (String.length s).
Proof. induction s as [|a s IH]; simpl; [reflexivity | rewrite IH; reflexivity]. Qed.

Lemma sprintf_d_nl_spec x :
  exists n s, sprintf_d_nl x = (n, s) /\ 0 < n /\
              n = Z.of_nat (String.length s) /\ s = dec x +:+ newline.
Proof.
  unfold sprintf_d_nl. eexists _, _. split; [reflexivity|].
  split; [|split; reflexivity].
  rewrite length_append_newline. lia.
Qed.

Lemma attached_private_regmap w d h :
  attached w d h -> private_regmap d w = Some (h, w).
Proof.
  intros (p & cfg & Hd & Hm & _).
  unfold private_regmap, dev_get_drvdata, load_regmap. unfold_monad.
  rewrite Hd. simpl. rewrite Hm. reflexivity.
Qed.

(** C8: on an attached device the register read of [enable_show] and of
    [data_show] returns, and whatever its outcome -- any status, failed
    reads included -- the callback returns the positive length of the text
    it formats, never the status of the read; the value it formats is what
    the local holds after the read, and when the read fails that is what
    the uninitialised local held at entry. *)
Theorem show_ignores_read_status w dev rm junk :
  attached w dev rm ->
  (exists st val w',
     regmap_read rm SPISENS_REG_CTRL junk w = Some ((st, val), w')) /\
  (exists st val w',
     regmap_read rm SPISENS_REG_DATA junk w = Some ((st, val), w')) /\
  (forall st val w',
     regmap_read rm SPISENS_REG_CTRL junk w = Some ((st, val), w') ->
     exists n s,
       enable_show dev junk w = Some ((n, s), w') /\
       0 < n /\ n = Z.of_nat (String.length s) /\
       s = dec (lnot_c (lnot_c (Z.land val CTRL_EN_MASK))) +:+ newline /\
       (st <> 0 -> val = junk)) /\
  (forall st val w',
     regmap_read rm SPISENS_REG_DATA junk w = Some ((st, val), w') ->
     exists n s,
       data_show dev junk w = Some ((n, s), w') /\
       0 < n /\ n = Z.of_nat (String.length s) /\
       s = dec (to_int (Z.shiftr (u32 (val * 1000)) 1)) +:+ newline /\
       (st <> 0 -> val = junk)).
Proof.
  intros Hatt. pose proof (attached_private_regmap _ _ _ Hatt) as Hrm.
  destruct Hatt as (p & cfg & _ & _ & Hlive).
  split; [eapply regmap_read_total; exact Hlive|].
  split; [eapply regmap_read_total; exact Hlive|].
  split.
  - intros st val w' Hread.
    destruct (regmap_read_inv _ _ _ _ _ _ _ Hread) as (_ & _ & _ & Hjunk & _).
    destruct (sprintf_d_nl_spec (lnot_c (lnot_c (Z.land val CTRL_EN_MASK))))
      as (n & s & Hfmt & Hpos & Hlen & Hs).
    exists n, s. split; [|auto].
    unfold enable_show. rewrite (callback_prefix dev _ w rm Hrm).
    rewrite (bind_Some _ _ _ _ _ Hread). cbn beta iota.
    rewrite Hfmt. reflexivity.
  - intros st val w' Hread.
    destruct (regmap_read_inv _ _ _ _ _ _ _ Hread) as (_ & _ & _ & Hjunk & _).
    destruct (sprintf_d_nl_spec (to_int (Z.shiftr (u32 (val * 1000)) 1)))
      as (n & s & Hfmt & Hpos & Hlen & Hs).
    exists n, s. split; [|auto].
    unfold data_show. rewrite (callback_prefix dev _ w rm Hrm).
    rewrite (bind_Some _ _ _ _ _ Hread). cbn beta iota.
    rewrite Hfmt. reflexivity.
Qed.

(** A failed read of CTRL (status -EIO) with 99 in the local: "1" is shown,
    although bit 0 of the chip's CTRL is clear. *)
Lemma show_ignores_read_status_witness :
  attached (attached_with [-5]) 0 2 /\
  regmap_read 2 SPISENS_REG_CTRL 99 (attached_with [-5]) =
    Some ((-5, 99),
          set_tick S (set_trace (fun t => t ++ [CallRegmapRead 0 SPISENS_REG_CTRL])
                                (attached_with [-5]))) /\
  Z.testbit (w_chip (attached_with [-5]) 0%nat SPISENS_REG_CTRL) 0 = false /\
  exists n w',
    enable_show 0 99 (attached_with [-5]) = Some ((n, "1" +:+ newline), w') /\
    0 < n.
Proof.
  assert (Hatt : attached (attached_with [-5]) 0 2).
  { exists 1, spisens_regmap_config. repeat split; reflexivity. }
  split; [exact Hatt|]. split; [reflexivity|]. split; [reflexivity|].
  destruct (show_ignores_read_status (attached_with [-5]) 0%nat 2 99 Hatt)
    as (_ & _ & Hshow & _).
  destruct (Hshow (-5) 99 _ eq_refl) as (n & s & Hrun & Hpos & _ & Hs & _).
  exists n. eexists. split; [|exact Hpos].
  rewrite Hrun, Hs. reflexivity.
Defined.

(** ** Register transactions through the driver's own register map *)

Lemma regmap_read_spisens w rm d reg val :
  w_regmaps w !! rm = Some (d, spisens_regmap_config) ->
  reg = SPISENS_REG_ID \/ reg = SPISENS_REG_CTRL \/ reg = SPISENS_REG_DATA ->
  regmap_read rm reg val w =
    Some ((if w_status w (w_tick w) =? 0
           then (0, Z.land (w_chip w d reg) 255)
           else (w_status w (w_tick w), val)),
          set_tick S (set_trace (fun t => t ++ [CallRegmapRead d reg]) w)).
Proof.
  intros E Hreg.
  assert (Ha : negb (reg mod reg_stride spisens_regmap_config =? 0) = false)
    by (destruct Hreg as [-> | [-> | ->]]; reflexivity).
  assert (Hr : negb (regmap_readable spisens_regmap_config reg) = false)
    by (destruct Hreg as [-> | [-> | ->]]; reflexivity).
  unfold regmap_read, regmap_lookup. unfold_monad.
  rewrite E. cbn beta iota. rewrite Ha, Hr.
  change (val_mask spisens_regmap_config) with 255. cbn.
  destruct (w_status w (w_tick w) =? 0); reflexivity.
Qed.

Lemma regmap_write_ctrl w rm d val :
  w_regmaps w !! rm = Some (d, spisens_regmap_config) ->
  regmap_write rm SPISENS_REG_CTRL val w =
    Some (w_status w (w_tick w),
          let w1 := set_tick S
                      (set_trace (fun t => t ++ [CallRegmapWrite d SPISENS_REG_CTRL val]) w) in
          if w_status w (w_tick w) =? 0
          then set_chip (fun c => <[d := <[SPISENS_REG_CTRL := Z.land val 255]> (c d)]> c) w1
          else w1).
Proof.
  intros E.
  assert (Ha : negb (SPISENS_REG_CTRL mod reg_stride spisens_regmap_config =? 0)
               = false) by reflexivity.
  assert (Hw : negb (regmap_writeable spisens_regmap_config d SPISENS_REG_CTRL)
               = false) by reflexivity.
  unfold regmap_write, regmap_lookup. unfold_monad.
  rewrite E. cbn beta iota. rewrite Ha, Hw.
  change (val_mask spisens_regmap_config) with 255. cbn.
  destruct (Z.eqb_spec (w_status w (w_tick w)) 0) as [Hs|Hs];
    [rewrite Hs|]; reflexivity.
Qed.

(** ** The [enable] attribute, write side *)

Lemma truthy_lnot n : truthy (lnot_c n) = (n =? 0).
Proof. unfold truthy, lnot_c. destruct (n =? 0); reflexivity. Qed.

Lemma bit0_set c : Z.testbit (Z.lor c CTRL_EN_MASK) 0 = true.
Proof. rewrite Z.lor_spec. apply orb_true_r. Qed.

Lemma bit0_cleared c : Z.testbit (Z.land c (u32 (Z.lnot CTRL_EN_MASK))) 0 = false.
Proof. rewrite Z.land_spec. apply andb_false_r. Qed.

Lemma bit0_of_byte x : Z.testbit (Z.land x 255) 0 = Z.testbit x 0.
Proof. rewrite Z.land_spec. apply andb_true_r. Qed.

Lemma ctrl_word_bit0 n c : Z.testbit (ctrl_word n c) 0 = negb (n =? 0).
Proof.
  unfold ctrl_word. rewrite truthy_lnot.
  destruct (n =? 0); [apply bit0_cleared | apply bit0_set].
Qed.

(** The whole of [enable_store] on a device bound to the driver's
    register map, in terms of the statuses of its two transactions. *)
Lemma enable_store_run sscanf_d w dev rm buf count ctrl enable :
  bound w dev rm ->
  let sr := w_status w (w_tick w) in
  let sw := w_status w (S (w_tick w)) in
  let c := if sr =? 0 then Z.land (w_chip w dev SPISENS_REG_CTRL) 255 else ctrl in
  let val := ctrl_word (default enable (sscanf_d buf)) c in
  let w1 := set_tick S (set_trace (fun t => t ++ [CallRegmapRead dev SPISENS_REG_CTRL]) w) in
  let w2 := set_tick S (set_trace (fun t => t ++ [CallRegmapWrite dev SPISENS_REG_CTRL val]) w1) in
  enable_store sscanf_d dev buf count ctrl enable w =
    Some ((if sw <? 0 then sw else ssize_of_size count),
          if sw =? 0
          then set_chip (fun f => <[dev := <[SPISENS_REG_CTRL := Z.land val 255]> (f dev)]> f) w2
          else w2).
Proof.
  intros Hb. pose proof (bound_private_regmap _ _ _ Hb) as Hrm.
  destruct Hb as (p & _ & _ & Hlive). intros sr sw c val w1 w2.
  unfold enable_store. rewrite (callback_prefix dev _ w rm Hrm).
  rewrite (bind_Some _ _ _ _ _
             (regmap_read_spisens w rm dev SPISENS_REG_CTRL ctrl Hlive
                (or_intror (or_introl eq_refl)))).
  fold sr. fold w1.
  assert (Hc : (if sr =? 0
                then (0, Z.land (w_chip w dev SPISENS_REG_CTRL) 255)
                else (sr, ctrl)) = ((if sr =? 0 then 0 else sr), c)).
  { subst c. destruct (sr =? 0); reflexivity. }
  rewrite Hc. cbn beta iota. fold (ctrl_word (default enable (sscanf_d buf)) c).
  fold val.
  assert (Hlive1 : w_regmaps w1 !! rm = Some (dev, spisens_regmap_config))
    by exact Hlive.
  rewrite (bind_Some _ _ _ _ _ (regmap_write_ctrl w1 rm dev val Hlive1)).
  change (w_status w1 (w_tick w1)) with sw. cbn zeta. fold w2.
  destruct (sw <? 0) eqn:Hneg; destruct (sw =? 0) eqn:Hz; reflexivity.
Qed.

(** C4: on a device bound to the driver's register map, when [sscanf]
    parses the integer [n] from the buffer, [enable_store] reads CTRL and
    then asks for one write of CTRL, of a word whose bit 0 is set when
    [n <> 0] and clear when [n = 0]; when that write succeeds the chip's
    CTRL has that bit 0 and [count] is returned, converted from [size_t]
    to [ssize_t], which is [count] itself for every length below 2^63;
    and when the write fails with a negative status that status is
    returned. *)
Theorem enable_store_sets_bit0 sscanf_d w dev rm buf count ctrl enable n :
  bound w dev rm ->
  sscanf_d buf = Some n ->
  exists val ret w',
    enable_store sscanf_d dev buf count ctrl enable w = Some (ret, w') /\
    w_trace w' = w_trace w ++ [CallRegmapRead dev SPISENS_REG_CTRL;
                               CallRegmapWrite dev SPISENS_REG_CTRL val] /\
    Z.testbit val 0 = negb (n =? 0) /\
    (w_status w (S (w_tick w)) = 0 ->
       ret = ssize_of_size count /\
       (0 <= count < 2 ^ 63 -> ret = count) /\
       Z.testbit (w_chip w' dev SPISENS_REG_CTRL) 0 = negb (n =? 0)) /\
    (w_status w (S (w_tick w)) < 0 -> ret = w_status w (S (w_tick w))).
Proof.
  intros Hb Hn.
  pose proof (enable_store_run sscanf_d w dev rm buf count ctrl enable Hb) as Hrun.
  cbv zeta in Hrun. rewrite Hn in Hrun. cbn [default from_option id] in Hrun.
  set (c := if w_status w (w_tick w) =? 0
            then Z.land (w_chip w dev SPISENS_REG_CTRL) 255 else ctrl) in *.
  set (sw := w_status w (S (w_tick w))) in *.
  eexists (ctrl_word n c), _, _. split; [exact Hrun|].
  split.
  { destruct (sw =? 0); cbn; rewrite <- app_assoc; reflexivity. }
  split; [apply ctrl_word_bit0|].
  split.
  - intros Hz. rewrite Hz. cbn [Z.ltb Z.compare]. split; [reflexivity|].
    split; [intros Hc; apply ssize_of_size_small; exact Hc|].
    cbn [Z.eqb w_chip set_chip set_tick set_trace].
    rewrite !fn_lookup_insert. rewrite bit0_of_byte. apply ctrl_word_bit0.
  - intros Hneg. destruct (Z.ltb_spec sw 0); [reflexivity | lia].
Qed.

Lemma enable_store_sets_bit0_witness :
  bound (attached_with []) 0 2 /\
  scan_dec "1" = Some 1 /\
  exists val ret w',
    enable_store scan_dec 0 "1" 2 7 7 (attached_with []) = Some (ret, w') /\
    Z.testbit val 0 = true /\ ret = 2 /\
    Z.testbit (w_chip w' 0%nat SPISENS_REG_CTRL) 0 = true.
Proof.
  assert (Hb : bound (attached_with []) 0 2).
  { exists 1. repeat split; reflexivity. }
  split; [exact Hb|]. split; [reflexivity|].
  destruct (enable_store_sets_bit0 scan_dec (attached_with []) 0%nat 2 "1" 2 7 7 1
              Hb eq_refl) as (val & ret & w' & Hrun & _ & Hbit & Hok & _).
  exists val, ret, w'. destruct (Hok eq_refl) as (_ & Hret & Hchip).
  repeat split; [exact Hrun | exact Hbit | apply Hret; lia | exact Hchip].
Defined.

(** On a good read the word written differs from the byte read in bit 0
    at most. *)
Lemma ctrl_word_frame n c i :
  0 <= c <= 255 -> 1 <= i -> Z.testbit (ctrl_word n c) i = Z.testbit c i.
Proof.
  intros Hc Hi. unfold ctrl_word. destruct (truthy (lnot_c n)).
  - rewrite Z.land_spec.
    destruct (Z.testbit c i) eqn:Hbit; [|reflexivity].
    assert (Hlt : i < 8).
    { destruct (Z.lt_ge_cases i 8) as [|Hge]; [assumption|].
      assert (Z.testbit c i = false); [|congruence].
      destruct (Z.eq_dec c 0) as [->|]; [apply Z.bits_0|].
      apply Z.bits_above_log2; [lia|].
      apply Z.lt_le_trans with 8; [|lia].
      apply Z.log2_lt_pow2; lia. }
    assert (i = 1 \/ i = 2 \/ i = 3 \/ i = 4 \/ i = 5 \/ i = 6 \/ i = 7) as Hcases by lia.
    repeat (destruct Hcases as [-> | Hcases]; [reflexivity|]).
    subst i. reflexivity.
  - rewrite Z.lor_spec. unfold CTRL_EN_MASK. change 1 with (Z.ones 1).
    rewrite Z.ones_spec_high by lia. apply orb_false_r.
Qed.

Lemma enable_store_frame_on_good_read sscanf_d w dev rm buf count ctrl enable i :
  bound w dev rm ->
  0 <= w_chip w dev SPISENS_REG_CTRL <= 255 ->
  w_status w (w_tick w) = 0 ->
  1 <= i ->
  exists ret w',
    enable_store sscanf_d dev buf count ctrl enable w = Some (ret, w') /\
    Z.testbit (w_chip w' dev SPISENS_REG_CTRL) i =
    Z.testbit (w_chip w dev SPISENS_REG_CTRL) i.
Proof.
  intros Hb Hbyte Hr Hi.
  pose proof (enable_store_run sscanf_d w dev rm buf count ctrl enable Hb) as Hrun.
  cbv zeta in Hrun. rewrite Hr in Hrun. cbn [Z.eqb] in Hrun.
  assert (Hc : Z.land (w_chip w dev SPISENS_REG_CTRL) 255
               = w_chip w dev SPISENS_REG_CTRL).
  { change 255 with (Z.ones 8). rewrite Z.land_ones by lia.
    apply Z.mod_small. lia. }
  rewrite Hc in Hrun.
  eexists _, _. split; [exact Hrun|].
  destruct (w_status w (S (w_tick w)) =? 0);
    cbn [w_chip set_chip set_tick set_trace]; [|reflexivity].
  rewrite !fn_lookup_insert. rewrite Z.land_spec.
  rewrite ctrl_word_frame by assumption.
  rewrite <- Hc at 2. rewrite Z.land_spec. reflexivity.
Qed.

(** C7: evaluated where the CTRL read fails and the write succeeds:
    CTRL holds 0xA4, the local [ctrl] holds 0xFE at entry, and "1" is
    stored.  The word written is 0xFF, so bits 1 to 7 of CTRL change. *)
Theorem enable_store_failed_read_disturbs_ctrl :
  exists w',
    enable_store scan_dec 0 "1" 2 254 0 (attached_with [-5]) = Some (2, w') /\
    w_trace w' = [CallRegmapRead 0 SPISENS_REG_CTRL;
                  CallRegmapWrite 0 SPISENS_REG_CTRL 255] /\
    w_chip (attached_with [-5]) 0%nat SPISENS_REG_CTRL = 164 /\
    w_chip w' 0%nat SPISENS_REG_CTRL = 255 /\
    Z.testbit 164 1 = false /\ Z.testbit 255 1 = true.
Proof.
  eexists. split; [vm_compute; reflexivity|].
  repeat split; reflexivity.
Qed.

(** ** The probe routine *)

Lemma IS_ERR_address p : IS_ERR (Z.pos p) = false.
Proof. reflexivity. Qed.

Lemma IS_ERR_range e : IS_ERR e = true <-> - MAX_ERRNO <= e < 0.
Proof. unfold IS_ERR. rewrite andb_true_iff, Z.leb_le, Z.ltb_lt. reflexivity. Qed.

Lemma IS_ERR_nonzero e : IS_ERR e = true -> (e =? 0) = false.
Proof. intros H. apply IS_ERR_range in H. apply Z.eqb_neq. lia. Qed.

Ltac finish_post :=
  simpl_world; unfold probe_post, probe_calls; simpl_world;
  repeat split;
  first [ reflexivity
        | apply insert_insert_eq
        | rewrite <- !app_assoc; reflexivity ].

(** The probe when [devm_kzalloc] fails. *)
Lemma probe_kzalloc_fails sscanf_d spi regval w :
  w_status w (w_tick w) <> 0 ->
  spisens_probe sscanf_d spi regval w =
    Some (- ENOMEM, set_tick S (set_trace (fun t => t ++ [CallKzalloc spi]) w)).
Proof.
  intros H0. apply Z.eqb_neq in H0.
  unfold_probe. simpl_world. rewrite H0. reflexivity.
Qed.

(** The probe when [devm_regmap_init_spi] returns an encoded error. *)
Lemma probe_regmap_init_fails sscanf_d spi regval w e :
  w_status w (w_tick w) = 0 ->
  w_status w (S (w_tick w)) = e ->
  IS_ERR e = true ->
  exists w',
    spisens_probe sscanf_d spi regval w = Some (to_int e, w') /\
    probe_post w w' spi e false false 2
      (probe_calls spi (Z.pos (w_next w)) ++
       [Log LogErr spi ("failed to allocate register map" +:+ newline)]).
Proof.
  intros H0 H1 He. pose proof (IS_ERR_nonzero e He) as Hnz.
  unfold_probe. simpl_world. rewrite H0. simpl_test. simpl_world.
  rewrite H1, Hnz. simpl_world. rewrite lookup_insert_eq.
  unfold ERR_PTR, PTR_ERR. rewrite He.
  eexists. split; [reflexivity|]. finish_post.
Qed.

(** The probe up to the ID read, when both allocations succeed. *)
Lemma probe_reaches_id_read sscanf_d spi regval w :
  w_status w (w_tick w) = 0 ->
  w_status w (S (w_tick w)) = 0 ->
  let s2 := w_status w (S (S (w_tick w))) in
  let v := Z.land (w_chip w spi SPISENS_REG_ID) 255 in
  let h := Z.pos (Pos.succ (w_next w)) in
  let calls := probe_calls spi (Z.pos (w_next w)) ++ [CallRegmapRead spi SPISENS_REG_ID] in
  (s2 < 0 ->
   exists w',
     spisens_probe sscanf_d spi regval w = Some (s2, w') /\
     probe_post w w' spi h true false 3
       (calls ++ [Log LogErr spi ("error reading ID register" +:+ newline)])) /\
  (s2 = 0 -> v <> SPISENS_ID ->
   exists w',
     spisens_probe sscanf_d spi regval w = Some (- ENODEV, w') /\
     probe_post w w' spi h true false 3
       (calls ++ [Log LogErr spi ("unexpected ID" +:+ newline)])) /\
  (s2 = 0 -> v = SPISENS_ID ->
   let s3 := w_status w (S (S (S (w_tick w)))) in
   exists w',
     spisens_probe sscanf_d spi regval w = Some (0, w') /\
     probe_post w w' spi h true (s3 =? 0) 4
       (calls ++ CallSysfsCreateGroup spi ::
          if truthy s3
          then [Log LogInfo spi ("Cannot create sysfs" +:+ newline)]
          else [])).
Proof.
  intros H0 H1 s2 v h calls.
  unfold_probe. simpl_world. rewrite H0. simpl_test. simpl_world.
  rewrite H1. simpl_test. simpl_world.
  rewrite lookup_insert_eq. rewrite IS_ERR_address.
  rewrite regmap_read_spisens with (d := spi);
    [|simpl_world; apply lookup_insert_eq | left; reflexivity].
  simpl_world. fold s2. fold v.
  split; [|split].
  - intros Hneg.
    assert (Hz : (s2 =? 0) = false) by (apply Z.eqb_neq; lia).
    assert (Hlt : (s2 <? 0) = true) by (apply Z.ltb_lt; lia).
    rewrite Hz, Hlt. eexists. split; [reflexivity|]. subst calls. finish_post.
  - intros Hz Hv. rewrite Hz. simpl_test.
    apply Z.eqb_neq in Hv. rewrite Hv. simpl_test.
    eexists. split; [reflexivity|]. subst calls. finish_post.
  - intros Hz Hv. set (s3 := w_status w (S (S (S (w_tick w))))).
    rewrite Hz. simpl_test. rewrite Hv.
    rewrite Z.eqb_refl. simpl_test. simpl_world. fold s3.
    destruct (s3 =? 0) eqn:Hs3; unfold truthy; rewrite Hs3; simpl_test;
      (eexists; split; [reflexivity|]); subst calls; finish_post.
Qed.

Lemma probe_post_attached w w' spi h sysfs ticks t :
  probe_post w w' spi h true sysfs ticks t ->
  attached w' spi h /\ bound w' spi h.
Proof.
  intros (_ & Hm & Hr & Hd & _).
  assert (Hb : bound w' spi h).
  { exists (Z.pos (w_next w)). rewrite Hd, Hm, Hr.
    rewrite !lookup_insert_eq. repeat split. }
  split; [|exact Hb].
  destruct Hb as (p & Hb). exists p, spisens_regmap_config. exact Hb.
Qed.

(** The host gives up the attach when the probe fails, and keeps the
    device attached when it returns 0. *)
Lemma driver_attach_failure probe d junk w r w' :
  probe d junk w = Some (r, w') -> r <> 0 ->
  exists w'', driver_attach probe d junk w = Some (r, w'') /\
              w_drvdata w'' !! d = None.
Proof.
  intros Hp Hr. unfold driver_attach. rewrite (bind_Some _ _ _ _ _ Hp).
  apply Z.eqb_neq in Hr. unfold truthy. rewrite Hr.
  unfold driver_detach, devres_release_all. unfold_monad. simpl_world.
  eexists. split; [reflexivity|]. simpl_world. apply lookup_delete_eq.
Qed.


(** C2: when the probe gets as far as reading the ID register and the
    read succeeds, the value read is compared with 0x5A.  If it differs,
    the probe logs, returns -ENODEV without creating the attributes, and
    the host gives up the attach; if it is 0x5A, the probe goes on to
    create the attribute group and returns 0. *)
Theorem probe_checks_id sscanf_d spi regval w :
  w_status w (w_tick w) = 0 ->
  w_status w (S (w_tick w)) = 0 ->
  w_status w (S (S (w_tick w))) = 0 ->
  SPISENS_ID = 90 /\
  (Z.land (w_chip w spi SPISENS_REG_ID) 255 <> SPISENS_ID ->
   exists w' w'',
     spisens_probe sscanf_d spi regval w = Some (- ENODEV, w') /\
     w_trace w' = w_trace w ++ probe_calls spi (Z.pos (w_next w)) ++
                    [CallRegmapRead spi SPISENS_REG_ID;
                     Log LogErr spi ("unexpected ID" +:+ newline)] /\
     w_sysfs w' = w_sysfs w /\
     driver_attach (spisens_probe sscanf_d) spi regval w = Some (- ENODEV, w'') /\
     w_drvdata w'' !! spi = None) /\
  (Z.land (w_chip w spi SPISENS_REG_ID) 255 = SPISENS_ID ->
   exists w' t,
     spisens_probe sscanf_d spi regval w = Some (0, w') /\
     w_trace w' = w_trace w ++ probe_calls spi (Z.pos (w_next w)) ++
                    [CallRegmapRead spi SPISENS_REG_ID;
                     CallSysfsCreateGroup spi] ++ t).
Proof.
  intros H0 H1 H2.
  destruct (probe_reaches_id_read sscanf_d spi regval w H0 H1) as (_ & Hbad & Hgood).
  split; [reflexivity|]. split.
  - intros Hv. destruct (Hbad H2 Hv) as (w' & Hrun & Hpost).
    destruct (driver_attach_failure _ _ _ _ _ _ Hrun) as (w'' & Hatt & Hnone);
      [unfold ENODEV; lia|].
    exists w', w''. split; [exact Hrun|].
    destruct Hpost as (_ & _ & _ & _ & Hsys & _ & _ & _ & Htr).
    rewrite Htr, Hsys. rewrite <- !app_assoc. repeat split; assumption.
  - intros Hv. destruct (Hgood H2 Hv) as (w' & Hrun & Hpost).
    eexists w', _. split; [exact Hrun|].
    destruct Hpost as (_ & _ & _ & _ & _ & _ & _ & _ & Htr).
    rewrite Htr. rewrite <- !app_assoc. reflexivity.
Qed.

Lemma probe_checks_id_witness :
  w_status boot (w_tick boot) = 0 /\
  w_status boot (S (w_tick boot)) = 0 /\
  w_status boot (S (S (w_tick boot))) = 0 /\
  Z.land (w_chip boot 0%nat SPISENS_REG_ID) 255 = SPISENS_ID /\
  exists w' t,
    spisens_probe scan_dec 0 7 boot = Some (0, w') /\
    w_trace w' = w_trace boot ++ probe_calls 0 (Z.pos (w_next boot)) ++
                   [CallRegmapRead 0 SPISENS_REG_ID;
                    CallSysfsCreateGroup 0] ++ t.
Proof.
  repeat (split; [reflexivity|]).
  exact (proj2 (proj2 (probe_checks_id scan_dec 0%nat 7 boot eq_refl eq_refl eq_refl))
           eq_refl).
Defined.

(** C3: whichever way the attach fails -- [devm_kzalloc] returns NULL,
    [devm_regmap_init_spi] returns an encoded error, the ID read returns a
    negative status, or the ID read yields an unexpected value -- the
    probe returns a negative code from that very call: the host calls it
    made are those up to the failing one, followed by at most a log line,
    none of them made twice, and the attribute group is not created. *)
Theorem probe_fails_without_retry sscanf_d spi regval w f :
  fails w spi f ->
  exists w',
    spisens_probe sscanf_d spi regval w = Some (failure_code f, w') /\
    failure_code f < 0 /\
    w_trace w' = w_trace w ++ failure_trace spi (Z.pos (w_next w)) f /\
    no_retry (failure_trace spi (Z.pos (w_next w)) f) = true /\
    w_sysfs w' = w_sysfs w.
Proof.
  destruct f as [|e|e|v]; cbn [fails failure_code failure_trace].
  - intros H0. eexists. split; [apply probe_kzalloc_fails; exact H0|].
    repeat split.
  - intros (H0 & H1 & He).
    destruct (probe_regmap_init_fails sscanf_d spi regval w e H0 H1)
      as (w' & Hrun & Hpost); [apply IS_ERR_range; exact He|].
    rewrite to_int_errno in Hrun by exact He.
    exists w'. destruct Hpost as (_ & _ & _ & _ & Hsys & _ & _ & _ & Htr).
    repeat split; [exact Hrun | lia | exact Htr | exact Hsys].
  - intros (H0 & H1 & H2 & He).
    destruct (probe_reaches_id_read sscanf_d spi regval w H0 H1) as (Hneg & _ & _).
    cbv zeta in Hneg. rewrite H2 in Hneg.
    destruct (Hneg He) as (w' & Hrun & Hpost).
    exists w'. destruct Hpost as (_ & _ & _ & _ & Hsys & _ & _ & _ & Htr).
    rewrite <- app_assoc in Htr.
    repeat split; [exact Hrun | exact He | exact Htr | exact Hsys].
  - intros (H0 & H1 & H2 & Hv & Hne).
    destruct (probe_reaches_id_read sscanf_d spi regval w H0 H1) as (_ & Hbad & _).
    cbv zeta in Hbad. rewrite Hv in Hbad.
    destruct (Hbad H2 Hne) as (w' & Hrun & Hpost).
    exists w'. destruct Hpost as (_ & _ & _ & _ & Hsys & _ & _ & _ & Htr).
    rewrite <- app_assoc in Htr.
    repeat split; [exact Hrun | exact Htr | exact Hsys].
Qed.

Lemma probe_fails_without_retry_witness :
  (fails (boot_with [1]) 0 KzallocFails /\
   exists w', spisens_probe scan_dec 0 7 (boot_with [1]) = Some (- ENOMEM, w') /\
              w_trace w' = [CallKzalloc 0]) /\
  (fails (boot_with [0; -12]) 0 (RegmapInitFails (-12)) /\
   exists w', spisens_probe scan_dec 0 7 (boot_with [0; -12]) = Some (-12, w') /\
              w_trace w' = probe_calls 0 1 ++
                [Log LogErr 0 ("failed to allocate register map" +:+ newline)]) /\
  (fails (boot_with [0; 0; -5]) 0 (IdReadFails (-5)) /\
   exists w', spisens_probe scan_dec 0 7 (boot_with [0; 0; -5]) = Some (-5, w') /\
              w_trace w' = probe_calls 0 1 ++
                [CallRegmapRead 0 SPISENS_REG_ID;
                 Log LogErr 0 ("error reading ID register" +:+ newline)]) /\
  (fails (set_chip (fun _ _ _ => 0) boot) 0 (UnexpectedId 0) /\
   exists w', spisens_probe scan_dec 0 7 (set_chip (fun _ _ _ => 0) boot)
                = Some (- ENODEV, w') /\
              w_trace w' = probe_calls 0 1 ++
                [CallRegmapRead 0 SPISENS_REG_ID;
                 Log LogErr 0 ("unexpected ID" +:+ newline)]).
Proof.
  assert (F1 : fails (boot_with [1]) 0 KzallocFails) by (cbn; lia).
  assert (F2 : fails (boot_with [0; -12]) 0 (RegmapInitFails (-12)))
    by (cbn; unfold MAX_ERRNO; lia).
  assert (F3 : fails (boot_with [0; 0; -5]) 0 (IdReadFails (-5))) by (cbn; lia).
  assert (F4 : fails (set_chip (fun _ _ _ => 0) boot) 0 (UnexpectedId 0))
    by (cbn; unfold SPISENS_ID; repeat split; lia).
  split; [|split; [|split]]; (split; [assumption|]).
  - destruct (probe_fails_without_retry scan_dec 0%nat 7 _ _ F1)
      as (w' & Hrun & _ & Htr & _).
    exists w'. split; [exact Hrun | exact Htr].
  - destruct (probe_fails_without_retry scan_dec 0%nat 7 _ _ F2)
      as (w' & Hrun & _ & Htr & _).
    exists w'. split; [exact Hrun | exact Htr].
  - destruct (probe_fails_without_retry scan_dec 0%nat 7 _ _ F3)
      as (w' & Hrun & _ & Htr & _).
    exists w'. split; [exact Hrun | exact Htr].
  - destruct (probe_fails_without_retry scan_dec 0%nat 7 _ _ F4)
      as (w' & Hrun & _ & Htr & _).
    exists w'. split; [exact Hrun | exact Htr].
Defined.



(** Why the attributes must be absent beforehand: the driver never removes
    its attribute group, so after an attach and a detach of device 0 a
    second probe whose [sysfs_create_group] fails returns 0 with the
    attributes of the first attach still there. *)
Example stale_attributes_when_rebound :
  exists w1 w2 w3,
    act scan_dec (Attach 0 7) (boot_with [0; 0; 0; 0; 0; 0; 0; -17]) = Some (tt, w1) /\
    act scan_dec (Detach 0) w1 = Some (tt, w2) /\
    spisens_probe scan_dec 0 7 w2 = Some (0, w3) /\
    w_sysfs w3 !! 0%nat = Some ["enable"; "data"].
Proof.
  pose (w0 := boot_with [0; 0; 0; 0; 0; 0; 0; -17]).
  pose (w1 := from_option snd boot (act scan_dec (Attach 0 7) w0)).
  pose (w2 := from_option snd boot (act scan_dec (Detach 0) w1)).
  pose (w3 := from_option snd boot (spisens_probe scan_dec 0 7 w2)).
  exists w1, w2, w3.
  split; [vm_compute; reflexivity|]. split; [vm_compute; reflexivity|].
  split; vm_compute; reflexivity.
Qed.

(** ** Relations kept by computations *)

Section Preserves.

Context (R : world -> world -> Prop).
Hypothesis R_refl : forall w, R w w.
Hypothesis R_trans : forall w1 w2 w3, R w1 w2 -> R w2 w3 -> R w1 w3.

Lemma preserves_ret {A} (a : A) : preserves R (mret a).
Proof. intros w a' w' H. injection H as _ <-. apply R_refl. Qed.

Lemma preserves_bind {A B} (m : M A) (k : A -> M B) :
  preserves R m -> (forall a, preserves R (k a)) -> preserves R (m ≫= k).
Proof.
  intros Hm Hk w b w' H. apply bind_inv in H as (a & w1 & H1 & H2).
  apply R_trans with w1; [eapply Hm | eapply Hk]; eassumption.
Qed.

Lemma preserves_get {A} (f : world -> A) : preserves R (get f).
Proof. intros w a w' H. injection H as _ <-. apply R_refl. Qed.

Lemma preserves_oops {A} : preserves R (@oops A).
Proof. intros w a w' H. discriminate. Qed.

Lemma preserves_modify (f : world -> world) :
  (forall w, R w (f w)) -> preserves R (modify f).
Proof. intros Hf w a w' H. injection H as _ <-. apply Hf. Qed.

Lemma preserves_load_regmap data : preserves R (load_regmap data).
Proof.
  intros w a w' H. unfold load_regmap in H.
  destruct (w_mem w !! data) as [[o s]|]; [|discriminate].
  injection H as _ <-. apply R_refl.
Qed.

Lemma preserves_regmap_lookup rm : preserves R (regmap_lookup rm).
Proof.
  intros w a w' H. unfold regmap_lookup in H.
  destruct (w_regmaps w !! rm); [|discriminate].
  injection H as _ <-. apply R_refl.
Qed.

Lemma preserves_private_regmap dev : preserves R (private_regmap dev).
Proof.
  intros w a w' H. apply private_regmap_same in H as ->. apply R_refl.
Qed.

End Preserves.

(** ** Which registers are written *)

Lemma writes_of_app t1 t2 : writes_of (t1 ++ t2) = writes_of t1 ++ writes_of t2.
Proof. unfold writes_of. apply omap_app. Qed.

Lemma ctrl_only_refl w : ctrl_only w w.
Proof.
  split; [reflexivity|]. exists []. split; [symmetry; apply app_nil_r|].
  constructor.
Qed.

Lemma ctrl_only_trans w1 w2 w3 :
  ctrl_only w1 w2 -> ctrl_only w2 w3 -> ctrl_only w1 w3.
Proof.
  intros [Hc1 (t1 & Ht1 & Hw1)] [Hc2 (t2 & Ht2 & Hw2)]. split.
  - intros d reg Hreg. rewrite Hc2, Hc1 by assumption. reflexivity.
  - exists (t1 ++ t2). split.
    + rewrite Ht2, Ht1. symmetry. apply app_assoc.
    + rewrite writes_of_app. apply Forall_app. split; assumption.
Qed.

(** A step that leaves chips and trace alone. *)
Lemma ctrl_only_silent w w' :
  w_chip w' = w_chip w -> w_trace w' = w_trace w -> ctrl_only w w'.
Proof.
  intros Hc Ht. split; [intros; rewrite Hc; reflexivity|].
  exists []. split; [rewrite Ht; symmetry; apply app_nil_r | constructor].
Qed.

(** A step that leaves the chips alone and traces one host call. *)
Lemma ctrl_only_event w w' e :
  w_chip w' = w_chip w -> w_trace w' = w_trace w ++ [e] ->
  Forall (fun rv => rv.1 = SPISENS_REG_CTRL) (writes_of [e]) ->
  ctrl_only w w'.
Proof.
  intros Hc Ht He. split; [intros; rewrite Hc; reflexivity|].
  exists [e]. split; assumption.
Qed.

Lemma ctrl_only_emit e :
  Forall (fun rv => rv.1 = SPISENS_REG_CTRL) (writes_of [e]) ->
  preserves ctrl_only (emit e).
Proof.
  intros He. apply preserves_modify. intros w.
  apply ctrl_only_event with e; [reflexivity | reflexivity | exact He].
Qed.

Lemma ctrl_only_next_status : preserves ctrl_only next_status.
Proof.
  intros w a w' H. injection H as _ <-. apply ctrl_only_silent; reflexivity.
Qed.

Lemma ctrl_only_fresh_addr : preserves ctrl_only fresh_addr.
Proof.
  intros w a w' H. injection H as _ <-. apply ctrl_only_silent; reflexivity.
Qed.

Lemma ctrl_only_store_regmap data rm : preserves ctrl_only (store_regmap data rm).
Proof.
  intros w a w' H. unfold store_regmap in H.
  destruct (w_mem w !! data) as [[o s]|]; [|discriminate].
  injection H as _ <-. apply ctrl_only_silent; reflexivity.
Qed.

Lemma ctrl_only_regmap_read rm reg val : preserves ctrl_only (regmap_read rm reg val).
Proof.
  intros w [st v] w' H.
  apply regmap_read_inv in H as (d & cfg & _ & _ & _ & Hc & _ & Ht).
  apply ctrl_only_event with (CallRegmapRead d reg); [assumption | assumption|].
  constructor.
Qed.

Lemma ctrl_only_regmap_write rm val :
  preserves ctrl_only (regmap_write rm SPISENS_REG_CTRL val).
Proof.
  intros w st w' H.
  apply regmap_write_inv in H as (d & cfg & _ & _ & _ & Ht & Hc). split.
  - intros d' reg Hreg. destruct Hc as [[_ ->] | (_ & _ & ->)]; [reflexivity|].
    destruct (decide (d = d')) as [<-|Hd].
    + rewrite fn_lookup_insert. rewrite fn_lookup_insert_ne by congruence.
      reflexivity.
    + rewrite fn_lookup_insert_ne by assumption. reflexivity.
  - exists [CallRegmapWrite d SPISENS_REG_CTRL val]. split; [exact Ht|].
    repeat constructor.
Qed.

Create HintDb ctrl.
#[local] Hint Resolve ctrl_only_refl ctrl_only_trans : ctrl.
#[local] Hint Resolve ctrl_only_next_status ctrl_only_fresh_addr
  ctrl_only_store_regmap ctrl_only_regmap_read ctrl_only_regmap_write : ctrl.

Ltac ctrl_only_auto :=
  repeat first
    [ solve [auto with ctrl]
    | apply preserves_ret; [exact ctrl_only_refl]
    | apply preserves_get; [exact ctrl_only_refl]
    | apply preserves_private_regmap; exact ctrl_only_refl
    | apply preserves_load_regmap; exact ctrl_only_refl
    | apply preserves_bind; [exact ctrl_only_trans | | intros ?]
    | apply ctrl_only_emit; repeat constructor
    | apply preserves_modify; intros ?; apply ctrl_only_silent; reflexivity
    | match goal with
      | |- preserves _ (if ?c then _ else _) => destruct c
      | |- preserves _ (match ?p with (_, _) => _ end) => destruct p
      end ].

Lemma ctrl_only_enable_show dev enable : preserves ctrl_only (enable_show dev enable).
Proof. unfold enable_show, dev_get_drvdata. ctrl_only_auto. Qed.

Lemma ctrl_only_data_show dev t : preserves ctrl_only (data_show dev t).
Proof. unfold data_show, dev_get_drvdata. ctrl_only_auto. Qed.

Lemma ctrl_only_enable_store sscanf_d dev buf count ctrl enable :
  preserves ctrl_only (enable_store sscanf_d dev buf count ctrl enable).
Proof. unfold enable_store, dev_get_drvdata. ctrl_only_auto. Qed.

Lemma ctrl_only_probe sscanf_d spi regval :
  preserves ctrl_only (spisens_probe sscanf_d spi regval).
Proof.
  unfold spisens_probe, devm_kzalloc, spi_set_drvdata, spi_setup,
    devm_regmap_init_spi, sysfs_create_group, dev_err, dev_info.
  ctrl_only_auto.
Qed.

Lemma ctrl_only_detach d : preserves ctrl_only (driver_detach d).
Proof. unfold driver_detach, devres_release_all. ctrl_only_auto. Qed.

Lemma ctrl_only_act sscanf_d a : preserves ctrl_only (act sscanf_d a).
Proof.
  destruct a; cbn [act]; unfold driver_attach.
  - apply preserves_bind; [exact ctrl_only_trans | | intros ?].
    + apply preserves_bind; [exact ctrl_only_trans | | intros r].
      * apply ctrl_only_probe.
      * destruct (truthy r); [|ctrl_only_auto].
        apply preserves_bind; [exact ctrl_only_trans | | intros ?].
        -- apply ctrl_only_detach.
        -- ctrl_only_auto.
    + ctrl_only_auto.
  - apply ctrl_only_detach.
  - apply preserves_bind; [exact ctrl_only_trans | | intros ?];
      [apply ctrl_only_enable_show | ctrl_only_auto].
  - apply preserves_bind; [exact ctrl_only_trans | | intros ?];
      [apply ctrl_only_enable_store | ctrl_only_auto].
  - apply preserves_bind; [exact ctrl_only_trans | | intros ?];
      [apply ctrl_only_data_show | ctrl_only_auto].
Qed.

Lemma regmap_writeable_spisens d reg :
  regmap_writeable spisens_regmap_config d reg = true -> reg = SPISENS_REG_CTRL.
Proof.
  unfold regmap_writeable. cbn [max_register writeable_reg spisens_regmap_config].
  destruct (SPISENS_REG_DATA <? reg); [discriminate|].
  unfold spisens_regmap_is_writeable. apply Z.eqb_eq.
Qed.

(** C6: the writeable predicate of the register map is true exactly for
    CTRL, and it is the predicate the driver's register map is configured
    with, so that a write of any other register through that map is
    refused and leaves the chip as it was; whatever the host asks of the
    driver, the only register writes requested are of CTRL and no other
    register of any chip changes; and the [data] attribute has a show
    callback and no store callback, with mode 0444, while [enable] has
    both. *)
Theorem only_ctrl_is_written sscanf_d :
  (forall dev reg,
     spisens_regmap_is_writeable dev reg = true <-> reg = SPISENS_REG_CTRL) /\
  writeable_reg spisens_regmap_config = Some spisens_regmap_is_writeable /\
  (forall w rm d reg val st w',
     w_regmaps w !! rm = Some (d, spisens_regmap_config) ->
     reg <> SPISENS_REG_CTRL ->
     regmap_write rm reg val w = Some (st, w') ->
     st <> 0 /\ w_chip w' = w_chip w) /\
  (forall a w w',
     act sscanf_d a w = Some (tt, w') ->
     (forall d reg, reg <> SPISENS_REG_CTRL -> w_chip w' d reg = w_chip w d reg) /\
     exists t, w_trace w' = w_trace w ++ t /\
               forall reg val, In (reg, val) (writes_of t) -> reg = SPISENS_REG_CTRL) /\
  attr_store dev_attr_data = None /\
  attr_show dev_attr_data = Some data_show /\
  attr_mode dev_attr_data = 4 * 64 + 4 * 8 + 4 /\
  attr_store (dev_attr_enable sscanf_d) = Some (enable_store sscanf_d) /\
  spisens_attrs sscanf_d = [dev_attr_enable sscanf_d; dev_attr_data].
Proof.
  split; [|split; [|split; [|split]]].
  - intros dev reg. unfold spisens_regmap_is_writeable. apply Z.eqb_eq.
  - reflexivity.
  - intros w rm d reg val st w' Hlive Hreg Hw.
    apply regmap_write_inv in Hw as (d' & cfg & Hl & _ & _ & _ & Hc).
    rewrite Hlive in Hl. injection Hl as <- <-.
    destruct Hc as [Hc | (_ & Hwr & _)]; [exact Hc|].
    apply regmap_writeable_spisens in Hwr. contradiction.
  - intros a w w' Hact.
    destruct (ctrl_only_act sscanf_d a w tt w' Hact) as [Hchip (t & Ht & Hw)].
    split; [exact Hchip|]. exists t. split; [exact Ht|].
    intros reg val Hin. rewrite Forall_forall in Hw.
    apply (Hw (reg, val)). apply list_elem_of_In. exact Hin.
  - repeat split.
Qed.

(** Storing "1" on device 0: CTRL goes from 0xA4 to 0xA5, ID and DATA stay. *)
Lemma only_ctrl_is_written_witness :
  exists w',
    act scan_dec (EnableStore 0 "1" 2 7 7) (attached_with []) = Some (tt, w') /\
    w_chip w' 0%nat SPISENS_REG_CTRL = 165 /\
    w_chip w' 0%nat SPISENS_REG_ID = 90 /\
    w_chip w' 0%nat SPISENS_REG_DATA = 37.
Proof.
  pose (w' := from_option snd boot
                (act scan_dec (EnableStore 0 "1" 2 7 7) (attached_with []))).
  assert (H : act scan_dec (EnableStore 0 "1" 2 7 7) (attached_with [])
              = Some (tt, w')) by (vm_compute; reflexivity).
  exists w'. split; [exact H|]. split; [reflexivity|].
  destruct (only_ctrl_is_written scan_dec) as (_ & _ & _ & Hact & _).
  destruct (Hact _ _ _ H) as [Hchip _].
  split; rewrite Hchip by discriminate; reflexivity.
Defined.

(** ** The attribute callbacks leave the kernel objects alone *)

Lemma objects_kept_refl w : objects_kept w w.
Proof. split; [apply same_objects_refl | reflexivity]. Qed.

Lemma objects_kept_trans w1 w2 w3 :
  objects_kept w1 w2 -> objects_kept w2 w3 -> objects_kept w1 w3.
Proof.
  intros [Ho1 Hs1] [Ho2 Hs2]. split.
  - eapply same_objects_trans; eassumption.
  - congruence.
Qed.

Lemma objects_kept_regmap_read rm reg val :
  preserves objects_kept (regmap_read rm reg val).
Proof.
  intros w [st v] w' H.
  apply regmap_read_inv in H as (d & cfg & _ & _ & Ho & _ & Hs & _).
  split; assumption.
Qed.

Lemma objects_kept_regmap_write rm reg val :
  preserves objects_kept (regmap_write rm reg val).
Proof.
  intros w st w' H.
  apply regmap_write_inv in H as (d & cfg & _ & Ho & Hs & _).
  split; assumption.
Qed.

Ltac objects_kept_auto :=
  repeat first
    [ apply objects_kept_regmap_read
    | apply objects_kept_regmap_write
    | apply preserves_ret; exact objects_kept_refl
    | apply preserves_get; exact objects_kept_refl
    | apply preserves_load_regmap; exact objects_kept_refl
    | apply preserves_bind; [exact objects_kept_trans | | intros ?]
    | match goal with
      | |- preserves _ (if ?c then _ else _) => destruct c
      | |- preserves _ (match ?p with (_, _) => _ end) => destruct p
      end ].

Lemma objects_kept_enable_show dev enable :
  preserves objects_kept (enable_show dev enable).
Proof. unfold enable_show, dev_get_drvdata. objects_kept_auto. Qed.

Lemma objects_kept_data_show dev t : preserves objects_kept (data_show dev t).
Proof. unfold data_show, dev_get_drvdata. objects_kept_auto. Qed.

Lemma objects_kept_enable_store sscanf_d dev buf count ctrl enable :
  preserves objects_kept (enable_store sscanf_d dev buf count ctrl enable).
Proof. unfold enable_store, dev_get_drvdata. objects_kept_auto. Qed.

Lemma objects_kept_attached w w' d h :
  objects_kept w w' -> attached w d h -> attached w' d h.
Proof.
  intros [(_ & Hm & Hr & Hd & _) _] (p & cfg & H1 & H2 & H3).
  exists p, cfg. rewrite Hm, Hr, Hd. repeat split; assumption.
Qed.

Lemma objects_kept_consistent w w' :
  objects_kept w w' -> consistent w -> consistent w'.
Proof.
  intros Hk ([Hwm Hwr] & Hs & Ha).
  pose proof Hk as [(Hn & Hm & Hr & Hd & _) Hst].
  split; [|split].
  - split; intros x; rewrite ?Hm, ?Hr, Hn; [apply Hwm | apply Hwr].
  - intros n. rewrite Hst. apply Hs.
  - intros d p Hp. rewrite Hd in Hp. destruct (Ha d p Hp) as [h Hh].
    exists h. eapply objects_kept_attached; eassumption.
Qed.

(** ** Detaching *)

Lemma driver_detach_run d w :
  driver_detach d w =
    Some (tt, set_drvdata (delete d)
                (set_regmaps (filter (fun kv => ¬ owned_by d kv))
                   (set_mem (filter (fun kv => ¬ owned_by d kv)) w))).
Proof. reflexivity. Qed.

Lemma detach_releases d h w w' :
  attached w d h -> driver_detach d w = Some (tt, w') ->
  w_regmaps w' !! h = None /\ handle_of w' d = None /\ w_drvdata w' !! d = None.
Proof.
  intros (p & cfg & _ & _ & Hr) H. rewrite driver_detach_run in H.
  injection H as <-. simpl_world. unfold handle_of. simpl_world.
  rewrite lookup_delete_eq. repeat split.
  apply map_lookup_filter_None. right. intros x Hx Hown.
  apply Hown. rewrite Hr in Hx. injection Hx as <-. reflexivity.
Qed.

Lemma detach_other d d2 h2 w w' :
  d2 <> d -> attached w d2 h2 -> driver_detach d w = Some (tt, w') ->
  attached w' d2 h2.
Proof.
  intros Hne (p & cfg & Hd & Hm & Hr) H. rewrite driver_detach_run in H.
  injection H as <-. exists p, cfg. simpl_world.
  rewrite lookup_delete_ne by congruence.
  split; [exact Hd|]. split.
  - apply map_lookup_filter_Some. split; [exact Hm|]. exact Hne.
  - apply map_lookup_filter_Some. split; [exact Hr|]. exact Hne.
Qed.

Lemma detach_wf d w w' :
  wf w -> driver_detach d w = Some (tt, w') -> wf w'.
Proof.
  intros [Hwm Hwr] H. rewrite driver_detach_run in H. injection H as <-.
  split; simpl_world; intros x [v Hx];
    apply map_lookup_filter_Some in Hx as [Hx _]; eauto.
Qed.

Lemma detach_status d w w' :
  driver_detach d w = Some (tt, w') -> w_status w' = w_status w.
Proof.
  intros H. rewrite driver_detach_run in H. injection H as <-. reflexivity.
Qed.

(** After a detach of [d] every device with driver data is attached, if
    that held of the devices other than [d] before. *)
Lemma detach_all_attached d w w' :
  (forall d2 p, d2 <> d -> w_drvdata w !! d2 = Some p -> exists h, attached w d2 h) ->
  driver_detach d w = Some (tt, w') ->
  all_attached w'.
Proof.
  intros Ha H d2 p Hp.
  assert (Hne : d2 <> d).
  { intros ->. rewrite driver_detach_run in H. injection H as <-.
    revert Hp. simpl_world. rewrite lookup_delete_eq. discriminate. }
  assert (Hp0 : w_drvdata w !! d2 = Some p).
  { rewrite driver_detach_run in H. injection H as <-.
    revert Hp. simpl_world. rewrite lookup_delete_ne by congruence. tauto. }
  destruct (Ha d2 p Hne Hp0) as [h Hh]. exists h.
  eapply detach_other; eassumption.
Qed.

(** ** Attaching *)

(** Every way the probe can end, when the host completes its operations
    with 0 or a negative error number: without a private block; with a
    private block and a nonzero result; or with result 0 and a register
    map in place. *)
Lemma probe_cases sscanf_d spi regval w :
  sane_statuses w ->
  exists r w',
    spisens_probe sscanf_d spi regval w = Some (r, w') /\
    ((r <> 0 /\ objects_kept w w') \/
     (r <> 0 /\ exists rm live n t,
        probe_post w w' spi rm live false n t /\
        (live = true -> rm = Z.pos (Pos.succ (w_next w)))) \/
     (r = 0 /\ exists sysfs t,
        probe_post w w' spi (Z.pos (Pos.succ (w_next w))) true sysfs 4 t)).
Proof.
  intros Hs.
  destruct (Z.eq_dec (w_status w (w_tick w)) 0) as [H0|H0].
  2:{ eexists _, _. split; [apply probe_kzalloc_fails; exact H0|].
      left. split; [unfold ENOMEM; lia|]. repeat split. }
  destruct (Z.eq_dec (w_status w (S (w_tick w))) 0) as [H1|H1].
  2:{ pose proof (Hs (S (w_tick w))) as Hr.
      assert (He : - MAX_ERRNO <= w_status w (S (w_tick w)) < 0) by lia.
      destruct (probe_regmap_init_fails sscanf_d spi regval w _ H0 eq_refl)
        as (w' & Hrun & Hpost); [apply IS_ERR_range; exact He|].
      rewrite to_int_errno in Hrun by exact He.
      eexists _, w'. split; [exact Hrun|]. right. left.
      split; [lia|]. eexists _, false, _, _. split; [exact Hpost | discriminate]. }
  destruct (probe_reaches_id_read sscanf_d spi regval w H0 H1)
    as (Hneg & Hbad & Hgood).
  pose proof (Hs (S (S (w_tick w)))) as Hr.
  destruct (Z.eq_dec (w_status w (S (S (w_tick w)))) 0) as [H2|H2].
  - destruct (Z.eq_dec (Z.land (w_chip w spi SPISENS_REG_ID) 255) SPISENS_ID)
      as [Hv|Hv].
    + destruct (Hgood H2 Hv) as (w' & Hrun & Hpost).
      eexists _, w'. split; [exact Hrun|]. right. right.
      split; [reflexivity|]. eexists _, _. exact Hpost.
    + destruct (Hbad H2 Hv) as (w' & Hrun & Hpost).
      eexists _, w'. split; [exact Hrun|]. right. left.
      split; [unfold ENODEV; lia|]. eexists _, true, _, _.
      split; [exact Hpost | reflexivity].
  - assert (Hlt : w_status w (S (S (w_tick w))) < 0) by lia.
    destruct (Hneg Hlt) as (w' & Hrun & Hpost).
    eexists _, w'. split; [exact Hrun|]. right. left.
    split; [lia|]. eexists _, true, _, _. split; [exact Hpost | reflexivity].
Qed.

Lemma probe_post_other w w' spi rm live sysfs n t d2 h2 :
  probe_post w w' spi rm live sysfs n t ->
  (live = true -> rm = Z.pos (Pos.succ (w_next w))) ->
  wf w -> d2 <> spi -> attached w d2 h2 -> attached w' d2 h2.
Proof.
  intros (_ & Hm & Hr & Hd & _) Hrm [Hwm Hwr] Hne (p & cfg & H1 & H2 & H3).
  exists p, cfg. rewrite Hm, Hr, Hd.
  assert (Hp : p < Z.pos (w_next w)) by (apply Hwm; eauto).
  assert (Hh : h2 < Z.pos (w_next w)) by (apply Hwr; eauto).
  rewrite lookup_insert_ne by congruence.
  rewrite lookup_insert_ne by lia.
  split; [exact H1|]. split; [exact H2|].
  destruct live; [|exact H3].
  rewrite lookup_insert_ne; [exact H3|]. rewrite Hrm by reflexivity. lia.
Qed.

Lemma probe_post_wf w w' spi rm live sysfs n t :
  probe_post w w' spi rm live sysfs n t ->
  (live = true -> rm = Z.pos (Pos.succ (w_next w))) ->
  wf w -> wf w'.
Proof.
  intros (Hn & Hm & Hr & _) Hrm [Hwm Hwr].
  assert (Hnext : Z.pos (w_next w) < Z.pos (w_next w'))
    by (rewrite Hn; destruct live; lia).
  split; intros x [v Hx].
  - rewrite Hm in Hx. destruct (decide (x = Z.pos (w_next w))) as [->|Hne].
    + exact Hnext.
    + rewrite lookup_insert_ne in Hx by congruence.
      apply Z.lt_trans with (Z.pos (w_next w)); [apply Hwm; eauto | exact Hnext].
  - rewrite Hr in Hx. destruct live.
    + destruct (decide (x = rm)) as [->|Hne].
      * rewrite Hrm by reflexivity. rewrite Hn. lia.
      * rewrite lookup_insert_ne in Hx by congruence.
        apply Z.lt_trans with (Z.pos (w_next w)); [apply Hwr; eauto | exact Hnext].
    + apply Z.lt_trans with (Z.pos (w_next w)); [apply Hwr; eauto | exact Hnext].
Qed.

Lemma probe_post_drvdata_other w w' spi rm live sysfs n t d2 p :
  probe_post w w' spi rm live sysfs n t ->
  d2 <> spi -> w_drvdata w' !! d2 = Some p -> w_drvdata w !! d2 = Some p.
Proof.
  intros (_ & _ & _ & Hd & _) Hne. rewrite Hd.
  rewrite lookup_insert_ne by congruence. tauto.
Qed.

Lemma probe_post_status w w' spi rm live sysfs n t :
  probe_post w w' spi rm live sysfs n t -> w_status w' = w_status w.
Proof. intros (_ & _ & _ & _ & _ & _ & Hs & _). exact Hs. Qed.

Lemma driver_attach_inv probe d junk w r w' :
  driver_attach probe d junk w = Some (r, w') ->
  exists r1 w1, probe d junk w = Some (r1, w1) /\
    ((r1 = 0 /\ r = 0 /\ w' = w1) \/
     (r1 <> 0 /\ r = r1 /\ driver_detach d w1 = Some (tt, w'))).
Proof.
  unfold driver_attach. intros H.
  apply bind_inv in H as (r1 & w1 & Hp & Hk). exists r1, w1.
  split; [exact Hp|]. unfold truthy in Hk.
  destruct (Z.eqb_spec r1 0) as [->|Hne]; cbn [negb] in Hk.
  - injection Hk as <- <-. left. repeat split.
  - apply bind_inv in Hk as ([] & w2 & Hd & Hr). injection Hr as <- <-.
    right. repeat split; assumption.
Qed.

Lemma attach_keeps_other sscanf_d d junk w r w' d2 h2 :
  consistent w -> d2 <> d -> attached w d2 h2 ->
  driver_attach (spisens_probe sscanf_d) d junk w = Some (r, w') ->
  attached w' d2 h2.
Proof.
  intros (Hwf & Hs & Ha) Hne Hatt H.
  apply driver_attach_inv in H as (r1 & w1 & Hp & Hend).
  destruct (probe_cases sscanf_d d junk w Hs) as (r0 & w0 & Hp0 & Hcases).
  rewrite Hp in Hp0. injection Hp0 as <- <-.
  assert (Hatt1 : attached w1 d2 h2).
  { destruct Hcases as [[_ Hk] | [(_ & rm & live & n & t & Hpost & Hrm)
                                 | (_ & sysfs & t & Hpost)]].
    - eapply objects_kept_attached; eassumption.
    - eapply probe_post_other; eassumption.
    - eapply probe_post_other; try eassumption. reflexivity. }
  destruct Hend as [(_ & _ & ->) | (_ & _ & Hd)]; [exact Hatt1|].
  eapply detach_other; eassumption.
Qed.

Lemma attach_consistent sscanf_d d junk w r w' :
  consistent w ->
  driver_attach (spisens_probe sscanf_d) d junk w = Some (r, w') ->
  consistent w'.
Proof.
  intros Hc H. pose proof Hc as (Hwf & Hs & Ha).
  apply driver_attach_inv in H as (r1 & w1 & Hp & Hend).
  destruct (probe_cases sscanf_d d junk w Hs) as (r0 & w0 & Hp0 & Hcases).
  rewrite Hp in Hp0. injection Hp0 as <- <-.
  assert (Hwf1 : wf w1).
  { destruct Hcases as [[_ Hk] | [(_ & rm & live & n & t & Hpost & Hrm)
                                 | (_ & sysfs & t & Hpost)]].
    - apply (objects_kept_consistent _ _ Hk Hc).
    - eapply probe_post_wf; eassumption.
    - eapply probe_post_wf; try eassumption. reflexivity. }
  assert (Hs1 : w_status w1 = w_status w).
  { destruct Hcases as [[_ [_ Hk]] | [(_ & rm & live & n & t & Hpost & Hrm)
                                     | (_ & sysfs & t & Hpost)]].
    - exact Hk.
    - eapply probe_post_status; eassumption.
    - eapply probe_post_status; eassumption. }
  assert (Hothers : forall d2 p, d2 <> d -> w_drvdata w1 !! d2 = Some p ->
                                 exists h, attached w1 d2 h).
  { intros d2 p Hne Hp2.
    destruct Hcases as [[_ Hk] | [(_ & rm & live & n & t & Hpost & Hrm)
                                 | (_ & sysfs & t & Hpost)]].
    - destruct Hk as [Hobj Hst]. pose proof Hobj as (_ & _ & _ & Hd & _).
      rewrite Hd in Hp2. destruct (Ha d2 p Hp2) as [h Hh]. exists h.
      eapply objects_kept_attached; [split|]; eassumption.
    - apply (probe_post_drvdata_other _ _ _ _ _ _ _ _ _ _ Hpost Hne) in Hp2.
      destruct (Ha d2 p Hp2) as [h Hh]. exists h.
      eapply probe_post_other; eassumption.
    - apply (probe_post_drvdata_other _ _ _ _ _ _ _ _ _ _ Hpost Hne) in Hp2.
      destruct (Ha d2 p Hp2) as [h Hh]. exists h.
      eapply probe_post_other; try eassumption. reflexivity. }
  destruct Hend as [(-> & _ & ->) | (Hr1 & _ & Hd)].
  - split; [exact Hwf1|]. split; [intros n; rewrite Hs1; apply Hs|].
    intros d2 p Hp2. destruct (decide (d2 = d)) as [->|Hne].
    + destruct Hcases as [[Hnz _] | [(Hnz & _) | (_ & sysfs & t & Hpost)]];
        [contradiction | contradiction |].
      exists (Z.pos (Pos.succ (w_next w))).
      apply (probe_post_attached _ _ _ _ _ _ _ Hpost).
    + eapply Hothers; eassumption.
  - split; [eapply detach_wf; eassumption|].
    split; [intros n; rewrite (detach_status _ _ _ Hd), Hs1; apply Hs|].
    eapply detach_all_attached; eassumption.
Qed.

(** ** The invariant of reachable worlds *)

Lemma pristine_consistent w : pristine w -> consistent w.
Proof.
  intros (Hm & Hr & Hd & Hs). split; [|split].
  - split; intros x [v Hx]; rewrite ?Hm, ?Hr in Hx;
      rewrite lookup_empty in Hx; discriminate.
  - exact Hs.
  - intros d p Hp. rewrite Hd, lookup_empty in Hp. discriminate.
Qed.

Lemma act_inv {A} (m : M A) w w' :
  (m;; mret tt) w = Some (tt, w') -> exists a, m w = Some (a, w').
Proof.
  intros H. apply bind_inv in H as (a & w1 & Hm & Hr).
  injection Hr as <-. exists a. exact Hm.
Qed.

Lemma act_consistent sscanf_d a w w' :
  consistent w -> act sscanf_d a w = Some (tt, w') -> consistent w'.
Proof.
  intros Hc H. destruct a; cbn [act] in H.
  - apply act_inv in H as [r H]. eapply attach_consistent; eassumption.
  - destruct Hc as (Hwf & Hs & Ha). split; [eapply detach_wf; eassumption|].
    split; [intros n; rewrite (detach_status _ _ _ H); apply Hs|].
    eapply detach_all_attached; [|eassumption]. intros d2 p _ Hp. eauto.
  - apply act_inv in H as [r H].
    eapply objects_kept_consistent; [eapply objects_kept_enable_show|]; eassumption.
  - apply act_inv in H as [r H].
    eapply objects_kept_consistent; [eapply objects_kept_enable_store|]; eassumption.
  - apply act_inv in H as [r H].
    eapply objects_kept_consistent; [eapply objects_kept_data_show|]; eassumption.
Qed.

Lemma reachable_consistent sscanf_d w : reachable sscanf_d w -> consistent w.
Proof.
  induction 1 as [w Hp | w a w' _ IH Hact].
  - apply pristine_consistent. exact Hp.
  - eapply act_consistent; eassumption.
Qed.

(** Whatever the host does that neither attaches nor detaches [d] leaves
    [d] attached with the same handle. *)
Lemma act_keeps_attached sscanf_d a w w' d h :
  consistent w -> attached w d h -> ~ rebinds a d ->
  act sscanf_d a w = Some (tt, w') -> attached w' d h.
Proof.
  intros Hc Hatt Hnr H. destruct a as [d'|d'| | |]; cbn [act rebinds] in *.
  - apply act_inv in H as [r H]. eapply attach_keeps_other; try eassumption.
    congruence.
  - eapply detach_other; try eassumption. congruence.
  - apply act_inv in H as [r H].
    eapply objects_kept_attached; [eapply objects_kept_enable_show|]; eassumption.
  - apply act_inv in H as [r H].
    eapply objects_kept_attached; [eapply objects_kept_enable_store|]; eassumption.
  - apply act_inv in H as [r H].
    eapply objects_kept_attached; [eapply objects_kept_data_show|]; eassumption.
Qed.

Lemma attached_handle_of w d h : attached w d h -> handle_of w d = Some h.
Proof.
  intros (p & cfg & Hd & Hm & _). unfold handle_of.
  rewrite Hd. cbn. rewrite Hm. reflexivity.
Qed.

Lemma handle_of_attached w d h :
  all_attached w -> handle_of w d = Some h -> attached w d h.
Proof.
  intros Ha Hh. unfold handle_of in Hh.
  destruct (w_drvdata w !! d) as [p|] eqn:Hd; [|discriminate].
  destruct (Ha d p Hd) as (h1 & p1 & cfg & Hd1 & Hm1 & Hr1).
  rewrite Hd in Hd1. injection Hd1 as <-.
  cbn in Hh. rewrite Hm1 in Hh. cbn in Hh. injection Hh as <-.
  exists p, cfg. repeat split; assumption.
Qed.

(** C10: in every world the host can bring about, (1) the private state
    is one register-map handle and nothing else; (2) an attach that
    succeeds leaves the device attached with a handle that was not live
    before, stored in its private state and owned by it; (3) whatever the
    host does next that neither detaches nor re-attaches that device --
    any attribute callback on any device, any attach or detach of another
    device -- leaves it attached with the same handle; (4) detaching the
    device releases the handle and the private state; (5) a handle held in
    the private state of a device is live and owned by that device, and
    (6) no two devices hold the same handle. *)
Theorem handle_lifetime sscanf_d w :
  reachable sscanf_d w ->
  (forall s : spisens, s = Spisens (regmap s)) /\
  (forall d regval w',
     driver_attach (spisens_probe sscanf_d) d regval w = Some (0, w') ->
     exists h, attached w' d h /\ handle_of w' d = Some h /\
               w_regmaps w !! h = None) /\
  (forall d h a w',
     attached w d h -> ~ rebinds a d ->
     act sscanf_d a w = Some (tt, w') -> attached w' d h) /\
  (forall d h w',
     attached w d h -> act sscanf_d (Detach d) w = Some (tt, w') ->
     w_regmaps w' !! h = None /\ handle_of w' d = None) /\
  (forall d h, handle_of w d = Some h -> attached w d h) /\
  (forall d1 d2 h,
     handle_of w d1 = Some h -> handle_of w d2 = Some h -> d1 = d2).
Proof.
  intros Hreach. pose proof (reachable_consistent _ _ Hreach) as Hc.
  pose proof Hc as (Hwf & Hs & Ha).
  split; [intros []; reflexivity|].
  split; [|split; [|split; [|split]]].
  - intros d regval w' H.
    apply driver_attach_inv in H as (r1 & w1 & Hp & Hend).
    destruct Hend as [(-> & _ & ->) | (Hnz & Hr & _)]; [|congruence].
    destruct (probe_cases sscanf_d d regval w Hs) as (r0 & w0 & Hp0 & Hcases).
    rewrite Hp in Hp0. injection Hp0 as <- <-.
    destruct Hcases as [[Hnz _] | [(Hnz & _) | (_ & sysfs & t & Hpost)]];
      [contradiction | contradiction |].
    exists (Z.pos (Pos.succ (w_next w))).
    pose proof (probe_post_attached _ _ _ _ _ _ _ Hpost) as [Hatt _].
    split; [exact Hatt|]. split; [apply attached_handle_of; exact Hatt|].
    destruct (w_regmaps w !! Z.pos (Pos.succ (w_next w))) as [x|] eqn:Hx;
      [|reflexivity].
    destruct Hwf as [_ Hwr].
    assert (Z.pos (Pos.succ (w_next w)) < Z.pos (w_next w))
      by (apply Hwr; rewrite Hx; eauto).
    lia.
  - intros d h a w' Hatt Hnr H. eapply act_keeps_attached; eassumption.
  - intros d h w' Hatt H. cbn [act] in H.
    destruct (detach_releases _ _ _ _ Hatt H) as (H1 & H2 & _).
    split; assumption.
  - intros d h Hh. apply handle_of_attached; assumption.
  - intros d1 d2 h H1 H2.
    apply (handle_of_attached _ _ _ Ha) in H1 as (p1 & c1 & _ & _ & Hr1).
    apply (handle_of_attached _ _ _ Ha) in H2 as (p2 & c2 & _ & _ & Hr2).
    rewrite Hr1 in Hr2. injection Hr2 as -> _. reflexivity.
Qed.

Lemma handle_lifetime_witness :
  exists w1 w2,
    reachable scan_dec w1 /\
    handle_of w1 0 = Some 2 /\
    act scan_dec (Detach 0) w1 = Some (tt, w2) /\
    w_regmaps w2 !! 2 = None /\ handle_of w2 0 = None.
Proof.
  pose (w1 := from_option snd boot (act scan_dec (Attach 0 7) boot)).
  pose (w2 := from_option snd boot (act scan_dec (Detach 0) w1)).
  assert (Hp : pristine boot).
  { repeat split; cbn; unfold MAX_ERRNO; lia. }
  assert (H1 : act scan_dec (Attach 0 7) boot = Some (tt, w1))
    by (vm_compute; reflexivity).
  assert (H2 : act scan_dec (Detach 0) w1 = Some (tt, w2))
    by (vm_compute; reflexivity).
  assert (Hr : reachable scan_dec w1)
    by (eapply reach_step; [apply reach_pristine; exact Hp | exact H1]).
  assert (Hh : handle_of w1 0 = Some 2) by (vm_compute; reflexivity).
  exists w1, w2. split; [exact Hr|]. split; [exact Hh|]. split; [exact H2|].
  destruct (handle_lifetime scan_dec w1 Hr) as (_ & _ & _ & Hrel & Hown & _).
  exact (Hrel 0%nat 2 w2 (Hown 0%nat 2 Hh) H2).
Defined.

(** * Further properties of the driver *)

(** ** The show callbacks on a bound device *)

Lemma enable_show_run w dev rm enable :
  bound w dev rm ->
  let sr := w_status w (w_tick w) in
  let c := if sr =? 0 then Z.land (w_chip w dev SPISENS_REG_CTRL) 255 else enable in
  enable_show dev enable w =
    Some (sprintf_d_nl (lnot_c (lnot_c (Z.land c CTRL_EN_MASK))),
          set_tick S (set_trace (fun t => t ++ [CallRegmapRead dev SPISENS_REG_CTRL]) w)).
Proof.
  intros Hb sr c. pose proof (bound_private_regmap _ _ _ Hb) as Hrm.
  destruct Hb as (p & _ & _ & Hlive).
  unfold enable_show. rewrite (callback_prefix dev _ w rm Hrm).
  rewrite (bind_Some _ _ _ _ _
             (regmap_read_spisens w rm dev SPISENS_REG_CTRL enable Hlive
                (or_intror (or_introl eq_refl)))).
  fold sr. subst c. destruct (sr =? 0); reflexivity.
Qed.

Lemma data_show_run w dev rm temperature :
  bound w dev rm ->
  let sr := w_status w (w_tick w) in
  let v := if sr =? 0 then Z.land (w_chip w dev SPISENS_REG_DATA) 255
           else temperature in
  data_show dev temperature w =
    Some (sprintf_d_nl (to_int (Z.shiftr (u32 (v * 1000)) 1)),
          set_tick S (set_trace (fun t => t ++ [CallRegmapRead dev SPISENS_REG_DATA]) w)).
Proof.
  intros Hb sr v. pose proof (bound_private_regmap _ _ _ Hb) as Hrm.
  destruct Hb as (p & _ & _ & Hlive).
  unfold data_show. rewrite (callback_prefix dev _ w rm Hrm).
  rewrite (bind_Some _ _ _ _ _
             (regmap_read_spisens w rm dev SPISENS_REG_DATA temperature Hlive
                (or_intror (or_intror eq_refl)))).
  fold sr. subst v. destruct (sr =? 0); reflexivity.
Qed.

(** What a show callback that returns went through: its register map,
    and one read through it. *)
Lemma show_inv {A} dev reg junk (k : Z * Z -> M A) w r w' :
  (data ← dev_get_drvdata dev; rm ← load_regmap data;
   x ← regmap_read rm reg junk; k x) w = Some (r, w') ->
  exists rm st v w1,
    private_regmap dev w = Some (rm, w) /\
    regmap_read rm reg junk w = Some ((st, v), w1) /\
    k (st, v) w1 = Some (r, w').
Proof.
  intros H.
  apply bind_inv in H as (data & w0 & Hd & H).
  apply bind_inv in H as (rm & w0' & Hl & H).
  apply bind_inv in H as ([st v] & w1 & Hread & H).
  assert (Hp : private_regmap dev w = Some (rm, w0')).
  { unfold private_regmap. rewrite (bind_Some _ _ _ _ _ Hd). exact Hl. }
  pose proof (private_regmap_same _ _ _ _ Hp) as ->.
  exists rm, st, v, w1. repeat split; assumption.
Qed.

(** X1: a show callback that returns has asked the host for exactly one
    register read -- of CTRL for [enable_show], of DATA for [data_show] --
    and for nothing else: no register of any chip and no kernel object has
    changed. *)
Theorem show_callbacks_only_read dev junk w r w' :
  (enable_show dev junk w = Some (r, w') ->
   w_chip w' = w_chip w /\ same_objects w w' /\
   exists d, w_trace w' = w_trace w ++ [CallRegmapRead d SPISENS_REG_CTRL]) /\
  (data_show dev junk w = Some (r, w') ->
   w_chip w' = w_chip w /\ same_objects w w' /\
   exists d, w_trace w' = w_trace w ++ [CallRegmapRead d SPISENS_REG_DATA]).
Proof.
  split; intros H.
  - unfold enable_show in H.
    apply show_inv in H as (rm & st & v & w1 & _ & Hread & Hk).
    injection Hk as _ <-.
    apply regmap_read_inv in Hread as (d & cfg & _ & _ & Ho & Hc & _ & Ht).
    split; [exact Hc|]. split; [exact Ho|]. exists d. exact Ht.
  - unfold data_show in H.
    apply show_inv in H as (rm & st & v & w1 & _ & Hread & Hk).
    injection Hk as _ <-.
    apply regmap_read_inv in Hread as (d & cfg & _ & _ & Ho & Hc & _ & Ht).
    split; [exact Hc|]. split; [exact Ho|]. exists d. exact Ht.
Qed.

Lemma show_callbacks_only_read_witness :
  exists r w',
    enable_show 0 7 (attached_with []) = Some (r, w') /\
    w_chip w' = w_chip (attached_with []) /\
    w_trace w' = [CallRegmapRead 0 SPISENS_REG_CTRL].
Proof.
  pose (r := from_option fst (0, "") (enable_show 0 7 (attached_with []))).
  pose (w' := from_option snd boot (enable_show 0 7 (attached_with []))).
  assert (H : enable_show 0 7 (attached_with []) = Some (r, w'))
    by (vm_compute; reflexivity).
  exists r, w'. split; [exact H|].
  destruct (proj1 (show_callbacks_only_read 0%nat 7 _ r w') H) as (Hc & _ & _).
  split; [exact Hc | reflexivity].
Defined.

(** X2: on an attached device [enable_show] returns, and whatever the
    read of CTRL yields -- a value, or a failure that leaves the
    uninitialised local as it was -- it returns 2 and the text is "0" or
    "1" followed by a newline: nothing else is ever shown. *)
Theorem enable_show_shows_0_or_1 w dev rm junk :
  attached w dev rm ->
  exists n s w',
    enable_show dev junk w = Some ((n, s), w') /\
    n = 2 /\ (s = "0" +:+ newline \/ s = "1" +:+ newline).
Proof.
  intros Hatt. pose proof (attached_private_regmap _ _ _ Hatt) as Hrm.
  destruct Hatt as (p & cfg & _ & _ & Hlive).
  destruct (regmap_read_total rm SPISENS_REG_CTRL junk w _ _ Hlive)
    as (st & v & w' & Hread).
  unfold enable_show. rewrite (callback_prefix dev _ w rm Hrm).
  rewrite (bind_Some _ _ _ _ _ Hread). cbn beta iota.
  rewrite double_negation_bit.
  destruct (Z.testbit v 0); eexists _, _, _;
    (split; [reflexivity|]); (split; [reflexivity|]); [right | left]; reflexivity.
Qed.

(** A failed read with 4095 in the local. *)
Lemma enable_show_shows_0_or_1_witness :
  attached (attached_with [-5]) 0 2 /\
  exists n s w',
    enable_show 0 4095 (attached_with [-5]) = Some ((n, s), w') /\
    n = 2 /\ (s = "0" +:+ newline \/ s = "1" +:+ newline).
Proof.
  assert (Hatt : attached (attached_with [-5]) 0 2).
  { exists 1, spisens_regmap_config. repeat split; reflexivity. }
  split; [exact Hatt|].
  exact (enable_show_shows_0_or_1 (attached_with [-5]) 0%nat 2 4095 Hatt).
Defined.

(** ** What [data_show] can print *)

Lemma halved_u32_range x : 0 <= Z.shiftr (u32 x) 1 < 2 ^ 31.
Proof.
  unfold u32. pose proof (Z.mod_pos_bound x (2 ^ 32) ltac:(lia)) as Hm.
  rewrite Z.shiftr_div_pow2 by lia. change (2 ^ 1) with 2.
  split.
  - apply Z.div_pos; lia.
  - apply Z.div_lt_upper_bound; lia.
Qed.

(** X3: on an attached device the read of DATA returns and so does
    [data_show]; whatever the read yields, and whatever the uninitialised
    local held when the read fails, the number printed is the 32-bit
    product of the local after the read and 1000, halved, which lies in
    0 .. 2^31 - 1: the [%d] conversion of the unsigned value never shows a
    negative temperature.  The value returned is the length of the
    text. *)
Theorem data_show_never_negative w dev rm junk :
  attached w dev rm ->
  (exists st val w',
     regmap_read rm SPISENS_REG_DATA junk w = Some ((st, val), w')) /\
  (forall st val w',
     regmap_read rm SPISENS_REG_DATA junk w = Some ((st, val), w') ->
     exists n s,
       data_show dev junk w = Some ((n, s), w') /\
       s = dec (Z.shiftr (u32 (val * 1000)) 1) +:+ newline /\
       0 <= Z.shiftr (u32 (val * 1000)) 1 < 2 ^ 31 /\
       n = Z.of_nat (String.length s)).
Proof.
  intros Hatt. pose proof (attached_private_regmap _ _ _ Hatt) as Hrm.
  destruct Hatt as (p & cfg & _ & _ & Hlive).
  split; [eapply regmap_read_total; exact Hlive|].
  intros st val w' Hread.
  pose proof (halved_u32_range (val * 1000)) as Hr.
  unfold data_show. rewrite (callback_prefix dev _ w rm Hrm).
  rewrite (bind_Some _ _ _ _ _ Hread). cbn beta iota.
  rewrite to_int_small by exact Hr. unfold sprintf_d_nl.
  eexists _, _. split; [reflexivity|]. split; [reflexivity|].
  split; [exact Hr | reflexivity].
Qed.

(** A failed read with 0xFFFFFFFF in the local: the product wraps and
    2147483148 is shown. *)
Lemma data_show_never_negative_witness :
  attached (attached_with [-5]) 0 2 /\
  exists w',
    regmap_read 2 SPISENS_REG_DATA 4294967295 (attached_with [-5])
      = Some ((-5, 4294967295), w') /\
    data_show 0 4294967295 (attached_with [-5])
      = Some ((11, "2147483148" +:+ newline), w').
Proof.
  assert (Hatt : attached (attached_with [-5]) 0 2).
  { exists 1, spisens_regmap_config. repeat split; reflexivity. }
  split; [exact Hatt|].
  pose (w' := set_tick S
                (set_trace (fun t => t ++ [CallRegmapRead 0 SPISENS_REG_DATA])
                   (attached_with [-5]))).
  assert (Hread : regmap_read 2 SPISENS_REG_DATA 4294967295 (attached_with [-5])
                  = Some ((-5, 4294967295), w')) by reflexivity.
  exists w'. split; [exact Hread|].
  destruct (proj2 (data_show_never_negative (attached_with [-5]) 0%nat 2 4294967295
                     Hatt) _ _ _ Hread) as (n & s & Hrun & Hs & _ & Hn).
  rewrite Hrun, Hn, Hs. reflexivity.
Defined.

Lemma byte_of_nat v : 0 <= v <= 255 -> In (Z.to_nat v) (seq 0 256).
Proof. intros H. apply in_seq. lia. Qed.

Lemma scaled_byte_length v :
  0 <= v <= 255 -> (1 <= String.length (dec (v * 500)) <= 6)%nat.
Proof.
  intros H.
  assert (Hall : forallb (fun k =>
             let l := String.length (dec (Z.of_nat k * 500)) in
             Nat.leb 1 l && Nat.leb l 6) (seq 0 256) = true)
    by (vm_compute; reflexivity).
  rewrite forallb_forall in Hall.
  specialize (Hall _ (byte_of_nat v H)). cbv zeta in Hall.
  rewrite Z2Nat.id in Hall by lia.
  apply andb_true_iff in Hall as [H1 H2].
  apply Nat.leb_le in H1, H2. lia.
Qed.

(** X4: when the read of DATA yields an 8-bit value, the text of
    [data_show] is between 2 and 7 characters long, newline included, and
    that length is the value returned. *)
Theorem data_show_length_bound dev temperature w rm v w' :
  0 <= v <= 255 ->
  private_regmap dev w = Some (rm, w) ->
  regmap_read rm SPISENS_REG_DATA temperature w = Some ((0, v), w') ->
  exists n s,
    data_show dev temperature w = Some ((n, s), w') /\
    n = Z.of_nat (String.length s) /\ 2 <= n <= 7.
Proof.
  intros Hv Hrm Hread. unfold data_show.
  rewrite (callback_prefix dev _ w rm Hrm).
  rewrite (bind_Some _ _ _ _ _ Hread). cbn beta iota.
  rewrite scale_exact by exact Hv. unfold sprintf_d_nl.
  eexists _, _. split; [reflexivity|]. split; [reflexivity|].
  rewrite length_append_newline.
  pose proof (scaled_byte_length v Hv). lia.
Qed.

(** The largest raw value: 255 shows as "127500". *)
Lemma data_show_length_bound_witness :
  exists n s w',
    data_show 0 7 (set_chip (fun _ _ _ => 255) (attached_with []))
      = Some ((n, s), w') /\
    n = Z.of_nat (String.length s) /\ 2 <= n <= 7.
Proof.
  pose (w := set_chip (fun _ _ _ => 255) (attached_with [])).
  destruct (data_show_length_bound 0%nat 7 w 2 255
              (set_tick S (set_trace (fun t => t ++ [CallRegmapRead 0 SPISENS_REG_DATA]) w))
              ltac:(lia) eq_refl eq_refl) as (n & s & H & Hn & Hb).
  exists n, s. eexists. split; [exact H|]. split; assumption.
Defined.

(** ** More on [enable_store] *)

Lemma land_byte_id b : 0 <= b <= 255 -> Z.land b 255 = b.
Proof.
  intros H. change 255 with (Z.ones 8). rewrite Z.land_ones by lia.
  apply Z.mod_small. lia.
Qed.

Lemma testbit_255 i : 0 <= i <= 7 -> Z.testbit 255 i = true.
Proof. intros H. change 255 with (Z.ones 8). apply Z.ones_spec_low. lia. Qed.

Lemma ctrl_word_fixed n b :
  0 <= b <= 255 -> Z.testbit b 0 = negb (n =? 0) -> ctrl_word n b = b.
Proof.
  intros Hb H0. apply Z.bits_inj'. intros i Hi.
  destruct (Z.eq_dec i 0) as [->|Hne].
  - rewrite ctrl_word_bit0. symmetry. exact H0.
  - apply ctrl_word_frame; lia.
Qed.

(** The byte that reaches the chip when the write succeeds. *)
Lemma stored_byte n c :
  0 <= Z.land (ctrl_word n c) 255 <= 255 /\
  Z.testbit (Z.land (ctrl_word n c) 255) 0 = negb (n =? 0).
Proof.
  split.
  - pose proof (land_byte_range (ctrl_word n c)). lia.
  - rewrite bit0_of_byte. apply ctrl_word_bit0.
Qed.

(** X5: [enable_store] does not test what [sscanf] returns.  When nothing
    is converted from the buffer it still reads CTRL and writes it once,
    and bit 0 of the word written is set exactly when the uninitialised
    local [enable] is nonzero; a successful write returns [count]
    converted from [size_t] to [ssize_t] -- [count] itself for every
    length below 2^63 -- as if the input had been accepted. *)
Theorem enable_store_unparsed_input sscanf_d w dev rm buf count ctrl enable :
  bound w dev rm ->
  sscanf_d buf = None ->
  exists val ret w',
    enable_store sscanf_d dev buf count ctrl enable w = Some (ret, w') /\
    w_trace w' = w_trace w ++ [CallRegmapRead dev SPISENS_REG_CTRL;
                               CallRegmapWrite dev SPISENS_REG_CTRL val] /\
    Z.testbit val 0 = negb (enable =? 0) /\
    (w_status w (S (w_tick w)) = 0 ->
       ret = ssize_of_size count /\
       (0 <= count < 2 ^ 63 -> ret = count) /\
       Z.testbit (w_chip w' dev SPISENS_REG_CTRL) 0 = negb (enable =? 0)).
Proof.
  intros Hb Hn.
  pose proof (enable_store_run sscanf_d w dev rm buf count ctrl enable Hb) as Hrun.
  cbv zeta in Hrun. rewrite Hn in Hrun. cbn [default from_option id] in Hrun.
  set (c := if w_status w (w_tick w) =? 0
            then Z.land (w_chip w dev SPISENS_REG_CTRL) 255 else ctrl) in *.
  set (sw := w_status w (S (w_tick w))) in *.
  eexists (ctrl_word enable c), _, _. split; [exact Hrun|].
  split.
  { destruct (sw =? 0); simpl_world; rewrite <- app_assoc; reflexivity. }
  split; [apply ctrl_word_bit0|].
  intros Hz. rewrite Hz. cbn [Z.ltb Z.compare]. split; [reflexivity|].
  split; [intros Hc; apply ssize_of_size_small; exact Hc|].
  cbn [Z.eqb]. simpl_world.
  rewrite !fn_lookup_insert. apply stored_byte.
Qed.

(** The empty buffer with 1 in the local: the sensor is enabled. *)
Lemma enable_store_unparsed_input_witness :
  bound (attached_with []) 0 2 /\
  scan_dec "" = None /\
  exists val ret w',
    enable_store scan_dec 0 "" 0 7 1 (attached_with []) = Some (ret, w') /\
    Z.testbit val 0 = true /\ ret = 0 /\
    Z.testbit (w_chip w' 0%nat SPISENS_REG_CTRL) 0 = true.
Proof.
  assert (Hb : bound (attached_with []) 0 2).
  { exists 1. repeat split; reflexivity. }
  split; [exact Hb|]. split; [reflexivity|].
  destruct (enable_store_unparsed_input scan_dec (attached_with []) 0%nat 2 "" 0 7 1
              Hb eq_refl) as (val & ret & w' & Hrun & _ & Hbit & Hok).
  exists val, ret, w'. destruct (Hok eq_refl) as (_ & Hret & Hchip).
  repeat split; [exact Hrun | exact Hbit | apply Hret; lia | exact Hchip].
Defined.

(** X6: when the read of CTRL succeeds, [enable_store] leaves bits 1 to 7
    of the chip's CTRL register as they were, whether the write that
    follows succeeds or fails and whatever is stored. *)
Theorem enable_store_keeps_other_bits sscanf_d w dev rm buf count ctrl enable :
  bound w dev rm ->
  w_status w (w_tick w) = 0 ->
  exists ret w',
    enable_store sscanf_d dev buf count ctrl enable w = Some (ret, w') /\
    forall i, 1 <= i <= 7 ->
      Z.testbit (w_chip w' dev SPISENS_REG_CTRL) i =
      Z.testbit (w_chip w dev SPISENS_REG_CTRL) i.
Proof.
  intros Hb Hr.
  pose proof (enable_store_run sscanf_d w dev rm buf count ctrl enable Hb) as Hrun.
  cbv zeta in Hrun. rewrite Hr in Hrun. cbn [Z.eqb] in Hrun.
  eexists _, _. split; [exact Hrun|]. intros i Hi.
  destruct (w_status w (S (w_tick w)) =? 0); simpl_world; [|reflexivity].
  rewrite !fn_lookup_insert. rewrite Z.land_spec.
  rewrite ctrl_word_frame
    by (pose proof (land_byte_range (w_chip w dev SPISENS_REG_CTRL)); lia).
  rewrite Z.land_spec, testbit_255 by lia.
  rewrite !andb_true_r. reflexivity.
Qed.

Lemma enable_store_keeps_other_bits_witness :
  bound (attached_with []) 0 2 /\
  exists ret w',
    enable_store scan_dec 0 "0" 2 7 7 (attached_with []) = Some (ret, w') /\
    Z.testbit (w_chip w' 0%nat SPISENS_REG_CTRL) 7 = true /\
    Z.testbit (w_chip w' 0%nat SPISENS_REG_CTRL) 1 = false.
Proof.
  assert (Hb : bound (attached_with []) 0 2).
  { exists 1. repeat split; reflexivity. }
  split; [exact Hb|].
  destruct (enable_store_keeps_other_bits scan_dec (attached_with []) 0%nat 2 "0" 2 7 7
              Hb eq_refl) as (ret & w' & Hrun & Hbits).
  exists ret, w'. split; [exact Hrun|].
  split; rewrite Hbits by lia; reflexivity.
Defined.

(** X7: when the write of CTRL does not succeed, [enable_store] leaves
    every register of every chip as it was, and a negative status of the
    write is what it returns. *)
Theorem enable_store_failed_write_no_effect
    sscanf_d w dev rm buf count ctrl enable :
  bound w dev rm ->
  w_status w (S (w_tick w)) <> 0 ->
  exists ret w',
    enable_store sscanf_d dev buf count ctrl enable w = Some (ret, w') /\
    w_chip w' = w_chip w /\
    (w_status w (S (w_tick w)) < 0 -> ret = w_status w (S (w_tick w))).
Proof.
  intros Hb Hw.
  pose proof (enable_store_run sscanf_d w dev rm buf count ctrl enable Hb) as Hrun.
  cbv zeta in Hrun. apply Z.eqb_neq in Hw. rewrite Hw in Hrun.
  eexists _, _. split; [exact Hrun|]. split; [reflexivity|].
  intros Hneg. apply Z.ltb_lt in Hneg. rewrite Hneg. reflexivity.
Qed.

Lemma enable_store_failed_write_no_effect_witness :
  bound (attached_with [0; -5]) 0 2 /\
  exists w',
    enable_store scan_dec 0 "1" 2 7 7 (attached_with [0; -5]) = Some (-5, w') /\
    w_chip w' = w_chip (attached_with [0; -5]).
Proof.
  assert (Hb : bound (attached_with [0; -5]) 0 2).
  { exists 1. repeat split; reflexivity. }
  split; [exact Hb|].
  destruct (enable_store_failed_write_no_effect scan_dec (attached_with [0; -5])
              0%nat 2 "1" 2 7 7 Hb ltac:(discriminate))
    as (ret & w' & Hrun & Hchip & Hret).
  assert (Hr : ret = -5) by (apply Hret; reflexivity).
  exists w'. rewrite Hr in Hrun. split; [exact Hrun | exact Hchip].
Defined.

(** A callback that leaves the kernel objects alone leaves the device
    bound. *)
Lemma bound_same_objects w w' dev rm :
  w_mem w' = w_mem w -> w_regmaps w' = w_regmaps w -> w_drvdata w' = w_drvdata w ->
  bound w dev rm -> bound w' dev rm.
Proof.
  intros Hm Hr Hd (p & H1 & H2 & H3). exists p.
  rewrite Hm, Hr, Hd. repeat split; assumption.
Qed.

(** The world after [enable_store] whose write succeeded. *)
Lemma enable_store_ok_run sscanf_d w dev rm buf count ctrl enable :
  bound w dev rm ->
  w_status w (S (w_tick w)) = 0 ->
  exists val w',
    enable_store sscanf_d dev buf count ctrl enable w
      = Some (ssize_of_size count, w') /\
    val = ctrl_word (default enable (sscanf_d buf))
            (if w_status w (w_tick w) =? 0
             then Z.land (w_chip w dev SPISENS_REG_CTRL) 255 else ctrl) /\
    bound w' dev rm /\
    w_status w' = w_status w /\
    w_tick w' = S (S (w_tick w)) /\
    w_chip w' dev SPISENS_REG_CTRL = Z.land val 255 /\
    forall d reg, (d, reg) <> (dev, SPISENS_REG_CTRL) ->
                  w_chip w' d reg = w_chip w d reg.
Proof.
  intros Hb Hw.
  pose proof (enable_store_run sscanf_d w dev rm buf count ctrl enable Hb) as Hrun.
  cbv zeta in Hrun. rewrite Hw in Hrun. cbn [Z.eqb Z.ltb Z.compare] in Hrun.
  eexists _, _. split; [exact Hrun|]. split; [reflexivity|].
  split; [eapply bound_same_objects; [| | |exact Hb]; reflexivity|].
  split; [reflexivity|]. split; [reflexivity|]. simpl_world.
  split; [rewrite !fn_lookup_insert; reflexivity|].
  intros d reg Hne. destruct (decide (dev = d)) as [<-|Hd].
  - rewrite fn_lookup_insert. rewrite fn_lookup_insert_ne by congruence.
    reflexivity.
  - rewrite fn_lookup_insert_ne by assumption. reflexivity.
Qed.

(** X8: what is stored is what is shown.  When [sscanf] parses [n], the
    write of CTRL succeeds and the next read of CTRL succeeds,
    [enable_show] after [enable_store] shows "1" if [n <> 0] and "0" if
    [n = 0] -- also when the read inside [enable_store] had failed. *)
Theorem store_then_show_round_trip
    sscanf_d w dev rm buf count ctrl enable junk n :
  bound w dev rm ->
  sscanf_d buf = Some n ->
  w_status w (S (w_tick w)) = 0 ->
  w_status w (S (S (w_tick w))) = 0 ->
  exists w1 w2,
    enable_store sscanf_d dev buf count ctrl enable w
      = Some (ssize_of_size count, w1) /\
    enable_show dev junk w1 =
      Some ((2, (if n =? 0 then "0" else "1") +:+ newline), w2).
Proof.
  intros Hb Hn Hw Hr2.
  destruct (enable_store_ok_run sscanf_d w dev rm buf count ctrl enable Hb Hw)
    as (val & w1 & Hrun & Hval & Hb1 & Hs1 & Ht1 & Hchip & _).
  rewrite Hn in Hval. cbn [default from_option id] in Hval.
  pose proof (enable_show_run w1 dev rm junk Hb1) as Hshow.
  cbv zeta in Hshow. rewrite Hs1, Ht1, Hr2 in Hshow. cbn [Z.eqb] in Hshow.
  rewrite Hchip in Hshow. rewrite double_negation_bit in Hshow.
  rewrite !bit0_of_byte in Hshow. rewrite Hval, ctrl_word_bit0 in Hshow.
  exists w1. eexists. split; [exact Hrun|]. rewrite Hshow.
  destruct (n =? 0); reflexivity.
Qed.

(** Storing "0" after a failed read of CTRL, then showing. *)
Lemma store_then_show_round_trip_witness :
  bound (attached_with [-5]) 0 2 /\
  scan_dec "0" = Some 0 /\
  exists w1 w2,
    enable_store scan_dec 0 "0" 2 255 7 (attached_with [-5]) = Some (2, w1) /\
    enable_show 0 7 w1 = Some ((2, "0" +:+ newline), w2).
Proof.
  assert (Hb : bound (attached_with [-5]) 0 2).
  { exists 1. repeat split; reflexivity. }
  split; [exact Hb|]. split; [reflexivity|].
  exact (store_then_show_round_trip scan_dec (attached_with [-5]) 0%nat 2 "0" 2 255 7 7 0
           Hb eq_refl eq_refl eq_refl).
Defined.

(** X9: storing the same value twice is storing it once.  When [sscanf]
    parses [n] and the two reads and two writes of CTRL succeed, the
    second [enable_store] leaves every register of every chip as the
    first one left it. *)
Theorem enable_store_idempotent sscanf_d w dev rm buf count ctrl enable n :
  bound w dev rm ->
  sscanf_d buf = Some n ->
  w_status w (S (w_tick w)) = 0 ->
  w_status w (S (S (w_tick w))) = 0 ->
  w_status w (S (S (S (w_tick w)))) = 0 ->
  exists w1 w2,
    enable_store sscanf_d dev buf count ctrl enable w
      = Some (ssize_of_size count, w1) /\
    enable_store sscanf_d dev buf count ctrl enable w1
      = Some (ssize_of_size count, w2) /\
    forall d reg, w_chip w2 d reg = w_chip w1 d reg.
Proof.
  intros Hb Hn Hw Hr2 Hw2.
  destruct (enable_store_ok_run sscanf_d w dev rm buf count ctrl enable Hb Hw)
    as (val & w1 & Hrun & Hval & Hb1 & Hs1 & Ht1 & Hchip & _).
  assert (Hw1 : w_status w1 (S (w_tick w1)) = 0) by (rewrite Hs1, Ht1; exact Hw2).
  destruct (enable_store_ok_run sscanf_d w1 dev rm buf count ctrl enable Hb1 Hw1)
    as (val2 & w2 & Hrun2 & Hval2 & _ & _ & _ & Hchip2 & Hrest).
  exists w1, w2. split; [exact Hrun|]. split; [exact Hrun2|].
  intros d reg. destruct (decide ((d, reg) = (dev, SPISENS_REG_CTRL))) as [Heq|Hne];
    [|apply Hrest; exact Hne].
  injection Heq as -> ->. rewrite Hchip2, Hchip.
  rewrite Hn in Hval, Hval2. cbn [default from_option id] in Hval, Hval2.
  rewrite Hs1, Ht1, Hr2 in Hval2. cbn [Z.eqb] in Hval2. rewrite Hchip in Hval2.
  destruct (stored_byte n (if w_status w (w_tick w) =? 0
                           then Z.land (w_chip w dev SPISENS_REG_CTRL) 255
                           else ctrl)) as [Hrange Hbit].
  rewrite <- Hval in Hrange, Hbit.
  rewrite (land_byte_id _ Hrange) in Hval2.
  rewrite (ctrl_word_fixed n _ Hrange Hbit) in Hval2.
  rewrite Hval2. apply land_byte_id. exact Hrange.
Qed.

Lemma enable_store_idempotent_witness :
  bound (attached_with []) 0 2 /\
  scan_dec "1" = Some 1 /\
  exists w1 w2,
    enable_store scan_dec 0 "1" 2 7 7 (attached_with []) = Some (2, w1) /\
    enable_store scan_dec 0 "1" 2 7 7 w1 = Some (2, w2) /\
    w_chip w1 0%nat SPISENS_REG_CTRL = 165 /\
    w_chip w2 0%nat SPISENS_REG_CTRL = 165.
Proof.
  assert (Hb : bound (attached_with []) 0 2).
  { exists 1. repeat split; reflexivity. }
  split; [exact Hb|]. split; [reflexivity|].
  destruct (enable_store_idempotent scan_dec (attached_with []) 0%nat 2 "1" 2 7 7 1
              Hb eq_refl eq_refl eq_refl eq_refl) as (w1 & w2 & H1 & H2 & Hsame).
  assert (Hc : w_chip w1 0%nat SPISENS_REG_CTRL = 165).
  { assert (Hv : enable_store scan_dec 0 "1" 2 7 7 (attached_with [])
                 = Some (2, from_option snd boot
                              (enable_store scan_dec 0 "1" 2 7 7 (attached_with []))))
      by (vm_compute; reflexivity).
    rewrite Hv in H1. injection H1 as <-. reflexivity. }
  exists w1, w2. split; [exact H1|]. split; [exact H2|].
  split; [exact Hc|]. rewrite Hsame. exact Hc.
Defined.

(** ** More on the probe routine *)

(** X10: when the host completes its operations with 0 or a negative
    error number, the probe returns -- it dereferences neither a NULL
    private block nor an encoded error -- and its result is 0 or a
    negative error number; it is 0 exactly when the two allocations and
    the ID read succeed and the ID read yields 0x5A, whatever
    [sysfs_create_group] does. *)
Theorem probe_result_characterised sscanf_d spi regval w :
  sane_statuses w ->
  exists r w',
    spisens_probe sscanf_d spi regval w = Some (r, w') /\
    - MAX_ERRNO <= r <= 0 /\
    (r = 0 <->
     w_status w (w_tick w) = 0 /\
     w_status w (S (w_tick w)) = 0 /\
     w_status w (S (S (w_tick w))) = 0 /\
     Z.land (w_chip w spi SPISENS_REG_ID) 255 = SPISENS_ID).
Proof.
  intros Hs.
  destruct (Z.eq_dec (w_status w (w_tick w)) 0) as [H0|H0].
  2:{ eexists _, _. split; [apply probe_kzalloc_fails; exact H0|].
      unfold MAX_ERRNO, ENOMEM. split; [lia|]. split; [lia | tauto]. }
  destruct (Z.eq_dec (w_status w (S (w_tick w))) 0) as [H1|H1].
  2:{ pose proof (Hs (S (w_tick w))) as Hr.
      assert (He : - MAX_ERRNO <= w_status w (S (w_tick w)) < 0) by lia.
      destruct (probe_regmap_init_fails sscanf_d spi regval w _ H0 eq_refl)
        as (w' & Hrun & _); [apply IS_ERR_range; exact He|].
      rewrite to_int_errno in Hrun by exact He.
      eexists _, w'. split; [exact Hrun|]. split; [lia|]. split; [lia | tauto]. }
  destruct (probe_reaches_id_read sscanf_d spi regval w H0 H1)
    as (Hneg & Hbad & Hgood).
  pose proof (Hs (S (S (w_tick w)))) as Hr.
  destruct (Z.eq_dec (w_status w (S (S (w_tick w)))) 0) as [H2|H2].
  - destruct (Z.eq_dec (Z.land (w_chip w spi SPISENS_REG_ID) 255) SPISENS_ID)
      as [Hv|Hv].
    + destruct (Hgood H2 Hv) as (w' & Hrun & _).
      eexists _, w'. split; [exact Hrun|]. unfold MAX_ERRNO.
      split; [lia | tauto].
    + destruct (Hbad H2 Hv) as (w' & Hrun & _).
      eexists _, w'. split; [exact Hrun|]. unfold MAX_ERRNO, ENODEV.
      split; [lia|]. split; [lia | tauto].
  - assert (Hlt : w_status w (S (S (w_tick w))) < 0) by lia.
    destruct (Hneg Hlt) as (w' & Hrun & _).
    eexists _, w'. split; [exact Hrun|]. split; [lia|]. split; [lia | tauto].
Qed.

Lemma probe_result_characterised_witness :
  sane_statuses (boot_with [0; 0; 0; -12]) /\
  exists w', spisens_probe scan_dec 0 7 (boot_with [0; 0; 0; -12]) = Some (0, w').
Proof.
  assert (Hs : sane_statuses (boot_with [0; 0; 0; -12])).
  { intros n. unfold MAX_ERRNO. cbn.
    do 4 (destruct n as [|n]; [lia|]). destruct n; lia. }
  split; [exact Hs|].
  destruct (probe_result_characterised scan_dec 0%nat 7 _ Hs)
    as (r & w' & Hrun & _ & Hiff).
  assert (Hr : r = 0) by (apply Hiff; repeat split; reflexivity).
  exists w'. rewrite Hr in Hrun. exact Hrun.
Defined.

(** X11: when every host operation of the probe succeeds and the ID reads
    0x5A, the probe returns 0 having made its six host calls in order and
    logged nothing; the attributes "enable" and "data" exist under the
    device, the device is bound to a register map made from the driver's
    config, and no register of any chip has changed. *)
Theorem probe_success sscanf_d spi regval w :
  w_status w (w_tick w) = 0 ->
  w_status w (S (w_tick w)) = 0 ->
  w_status w (S (S (w_tick w))) = 0 ->
  w_status w (S (S (S (w_tick w)))) = 0 ->
  Z.land (w_chip w spi SPISENS_REG_ID) 255 = SPISENS_ID ->
  exists w',
    spisens_probe sscanf_d spi regval w = Some (0, w') /\
    w_trace w' = w_trace w ++
      [CallKzalloc spi; CallSetDrvdata spi (Z.pos (w_next w)); CallSpiSetup spi 8;
       CallRegmapInit spi; CallRegmapRead spi SPISENS_REG_ID;
       CallSysfsCreateGroup spi] /\
    w_sysfs w' !! spi = Some ["enable"; "data"] /\
    bound w' spi (Z.pos (Pos.succ (w_next w))) /\
    w_chip w' = w_chip w.
Proof.
  intros H0 H1 H2 H3 Hv.
  destruct (probe_reaches_id_read sscanf_d spi regval w H0 H1) as (_ & _ & Hgood).
  destruct (Hgood H2 Hv) as (w' & Hrun & Hpost).
  unfold truthy in Hpost. rewrite H3 in Hpost. cbn [Z.eqb negb] in Hpost.
  exists w'. split; [exact Hrun|].
  pose proof (probe_post_attached _ _ _ _ _ _ _ Hpost) as [_ Hb].
  destruct Hpost as (_ & _ & _ & _ & Hsys & Hchip & _ & _ & Htr).
  rewrite Htr, Hsys. unfold probe_calls. rewrite <- !app_assoc.
  repeat split; [apply lookup_insert_eq | exact Hb | exact Hchip].
Qed.

Lemma probe_success_witness :
  exists w',
    spisens_probe scan_dec 0 7 boot = Some (0, w') /\
    w_sysfs w' !! 0%nat = Some ["enable"; "data"] /\
    bound w' 0 2.
Proof.
  destruct (probe_success scan_dec 0%nat 7 boot eq_refl eq_refl eq_refl eq_refl eq_refl)
    as (w' & Hrun & _ & Hsys & Hb & _).
  exists w'. repeat split; assumption.
Defined.

(** X12: after a probe that returned 0 the attribute callbacks work: on
    the world the probe leaves, each of the three returns a result for
    every argument, whatever the later register transactions do. *)
Theorem callbacks_after_probe sscanf_d spi regval w w' :
  sane_statuses w ->
  spisens_probe sscanf_d spi regval w = Some (0, w') ->
  forall junk buf count ctrl enable,
    (exists r w'', enable_show spi junk w' = Some (r, w'')) /\
    (exists r w'', data_show spi junk w' = Some (r, w'')) /\
    (exists r w'', enable_store sscanf_d spi buf count ctrl enable w' = Some (r, w'')).
Proof.
  intros Hs Hp junk buf count ctrl enable.
  destruct (probe_cases sscanf_d spi regval w Hs) as (r0 & w0 & Hp0 & Hcases).
  rewrite Hp in Hp0. injection Hp0 as <- <-.
  destruct Hcases as [[Hnz _] | [(Hnz & _) | (_ & sysfs & t & Hpost)]];
    [contradiction | contradiction |].
  pose proof (probe_post_attached _ _ _ _ _ _ _ Hpost) as [_ Hb].
  split; [|split].
  - eexists _, _. apply (enable_show_run _ _ _ junk Hb).
  - eexists _, _. apply (data_show_run _ _ _ junk Hb).
  - eexists _, _. apply (enable_store_run sscanf_d _ _ _ buf count ctrl enable Hb).
Qed.

Lemma callbacks_after_probe_witness :
  exists w' r w'',
    spisens_probe scan_dec 0 7 boot = Some (0, w') /\
    data_show 0 7 w' = Some (r, w'').
Proof.
  pose (w' := from_option snd boot (spisens_probe scan_dec 0 7 boot)).
  assert (Hp : spisens_probe scan_dec 0 7 boot = Some (0, w'))
    by (vm_compute; reflexivity).
  assert (Hs : sane_statuses boot) by (intros n; unfold MAX_ERRNO; cbn; lia).
  destruct (callbacks_after_probe scan_dec 0%nat 7 boot w' Hs Hp 7 "" 0 0 0)
    as (_ & (r & w'' & Hd) & _).
  exists w', r, w''. split; assumption.
Defined.

(** ** The probe routine and the chips *)

Lemma chips_untouched_refl w : chips_untouched w w.
Proof.
  split; [reflexivity|]. exists []. split; [symmetry; apply app_nil_r|].
  constructor.
Qed.

Lemma chips_untouched_trans w1 w2 w3 :
  chips_untouched w1 w2 -> chips_untouched w2 w3 -> chips_untouched w1 w3.
Proof.
  intros [Hc1 (t1 & Ht1 & Hq1)] [Hc2 (t2 & Ht2 & Hq2)]. split.
  - congruence.
  - exists (t1 ++ t2). split.
    + rewrite Ht2, Ht1. symmetry. apply app_assoc.
    + apply Forall_app. split; assumption.
Qed.

Lemma chips_untouched_silent w w' :
  w_chip w' = w_chip w -> w_trace w' = w_trace w -> chips_untouched w w'.
Proof.
  intros Hc Ht. split; [exact Hc|].
  exists []. split; [rewrite Ht; symmetry; apply app_nil_r | constructor].
Qed.

Lemma chips_untouched_emit e :
  id_read_at_most e -> preserves chips_untouched (emit e).
Proof.
  intros He. apply preserves_modify. intros w. split; [reflexivity|].
  exists [e]. split; [reflexivity|]. repeat constructor. exact He.
Qed.

Lemma chips_untouched_next_status : preserves chips_untouched next_status.
Proof.
  intros w a w' H. injection H as _ <-. apply chips_untouched_silent; reflexivity.
Qed.

Lemma chips_untouched_fresh_addr : preserves chips_untouched fresh_addr.
Proof.
  intros w a w' H. injection H as _ <-. apply chips_untouched_silent; reflexivity.
Qed.

Lemma chips_untouched_store_regmap data rm :
  preserves chips_untouched (store_regmap data rm).
Proof.
  intros w a w' H. unfold store_regmap in H.
  destruct (w_mem w !! data) as [[o s]|]; [|discriminate].
  injection H as _ <-. apply chips_untouched_silent; reflexivity.
Qed.

Lemma chips_untouched_read_id rm val :
  preserves chips_untouched (regmap_read rm SPISENS_REG_ID val).
Proof.
  intros w [st v] w' H.
  apply regmap_read_inv in H as (d & cfg & _ & _ & _ & Hc & _ & Ht).
  split; [exact Hc|]. exists [CallRegmapRead d SPISENS_REG_ID].
  split; [exact Ht|]. repeat constructor.
Qed.

Ltac chips_untouched_auto :=
  repeat first
    [ apply chips_untouched_read_id
    | apply chips_untouched_next_status
    | apply chips_untouched_fresh_addr
    | apply chips_untouched_store_regmap
    | apply preserves_ret; exact chips_untouched_refl
    | apply preserves_bind; [exact chips_untouched_trans | | intros ?]
    | apply chips_untouched_emit; exact I
    | apply preserves_modify; intros ?; apply chips_untouched_silent; reflexivity
    | match goal with
      | |- preserves _ (if ?c then _ else _) => destruct c
      | |- preserves _ (match ?p with (_, _) => _ end) => destruct p
      end ].

(** X13: however the probe ends, with whatever statuses the host
    completes its operations, it has not written any register and has
    read none but ID: no register of any chip has changed, so attaching
    never switches the sensor on or off. *)
Theorem probe_leaves_chips_alone sscanf_d spi regval w r w' :
  spisens_probe sscanf_d spi regval w = Some (r, w') ->
  w_chip w' = w_chip w /\
  exists t, w_trace w' = w_trace w ++ t /\
            writes_of t = [] /\
            forall d reg, In (CallRegmapRead d reg) t -> reg = SPISENS_REG_ID.
Proof.
  intros H.
  assert (Hp : preserves chips_untouched (spisens_probe sscanf_d spi regval)).
  { unfold spisens_probe, devm_kzalloc, spi_set_drvdata, spi_setup,
      devm_regmap_init_spi, sysfs_create_group, dev_err, dev_info.
    chips_untouched_auto. }
  destruct (Hp _ _ _ H) as [Hc (t & Ht & Hq)].
  split; [exact Hc|]. exists t. split; [exact Ht|]. split.
  - clear Ht. induction Hq as [|e t He _ IH]; [reflexivity|].
    unfold writes_of in *. cbn [omap list_omap]. rewrite IH.
    destruct e; cbn in He |- *; try reflexivity. contradiction.
  - intros d reg Hin. rewrite Forall_forall in Hq.
    apply (Hq (CallRegmapRead d reg)). apply list_elem_of_In. exact Hin.
Qed.

Lemma probe_leaves_chips_alone_witness :
  exists w',
    spisens_probe scan_dec 0 7 (boot_with [0; 0; -5]) = Some (-5, w') /\
    w_chip w' = w_chip (boot_with [0; 0; -5]).
Proof.
  pose (w' := from_option snd boot
                (spisens_probe scan_dec 0 7 (boot_with [0; 0; -5]))).
  assert (H : spisens_probe scan_dec 0 7 (boot_with [0; 0; -5]) = Some (-5, w'))
    by (vm_compute; reflexivity).
  exists w'. split; [exact H|].
  exact (proj1 (probe_leaves_chips_alone _ _ _ _ _ _ H)).
Defined.

(** ** Attributes after a detach *)

Lemma driver_unbind_spisens sscanf_d d w :
  driver_unbind (spisens_driver sscanf_d) d w = driver_detach d w.
Proof. reflexivity. Qed.

Lemma detach_null_free d w w' :
  null_free w -> driver_detach d w = Some (tt, w') -> null_free w'.
Proof.
  intros Hn H. rewrite driver_detach_run in H. injection H as <-.
  unfold null_free. simpl_world. apply map_lookup_filter_None. left. exact Hn.
Qed.

Lemma probe_null_free sscanf_d spi regval w r w' :
  sane_statuses w -> null_free w ->
  spisens_probe sscanf_d spi regval w = Some (r, w') -> null_free w'.
Proof.
  intros Hs Hn Hp.
  destruct (probe_cases sscanf_d spi regval w Hs) as (r0 & w0 & Hp0 & Hcases).
  rewrite Hp in Hp0. injection Hp0 as <- <-. unfold null_free in *.
  destruct Hcases as [[_ [(_ & Hm & _) _]]
                     | [(_ & rm & live & n & t & (_ & Hm & _) & _)
                       | (_ & sysfs & t & (_ & Hm & _))]];
    rewrite Hm; [exact Hn | |]; rewrite lookup_insert_ne by discriminate; exact Hn.
Qed.

Lemma act_null_free sscanf_d a w w' :
  consistent w -> null_free w -> act sscanf_d a w = Some (tt, w') -> null_free w'.
Proof.
  intros (_ & Hs & _) Hn H. destruct a; cbn [act] in H.
  - apply act_inv in H as [r H].
    apply driver_attach_inv in H as (r1 & w1 & Hp & Hend).
    pose proof (probe_null_free _ _ _ _ _ _ Hs Hn Hp) as Hn1.
    destruct Hend as [(_ & _ & ->) | (_ & _ & Hd)]; [exact Hn1|].
    eapply detach_null_free; eassumption.
  - eapply detach_null_free; eassumption.
  - apply act_inv in H as [r H].
    destruct (objects_kept_enable_show _ _ _ _ _ H) as [(_ & Hm & _) _].
    unfold null_free. rewrite Hm. exact Hn.
  - apply act_inv in H as [r H].
    destruct (objects_kept_enable_store _ _ _ _ _ _ _ _ _ H) as [(_ & Hm & _) _].
    unfold null_free. rewrite Hm. exact Hn.
  - apply act_inv in H as [r H].
    destruct (objects_kept_data_show _ _ _ _ _ H) as [(_ & Hm & _) _].
    unfold null_free. rewrite Hm. exact Hn.
Qed.

Lemma reachable_null_free sscanf_d w : reachable sscanf_d w -> null_free w.
Proof.
  induction 1 as [w (Hm & _) | w a w' Hr IH Hact].
  - unfold null_free. rewrite Hm. apply lookup_empty.
  - eapply act_null_free; [eapply reachable_consistent| |]; eassumption.
Qed.

(** A callback on a device without driver data dereferences NULL. *)
Lemma callbacks_oops_without_drvdata sscanf_d d w :
  w_drvdata w !! d = None -> null_free w ->
  forall junk buf count ctrl enable,
    enable_show d junk w = None /\
    data_show d junk w = None /\
    enable_store sscanf_d d buf count ctrl enable w = None.
Proof.
  intros Hd Hn junk buf count ctrl enable. unfold null_free in Hn.
  unfold enable_show, data_show, enable_store, dev_get_drvdata, load_regmap.
  unfold_monad. rewrite Hd. cbn [default from_option id]. rewrite Hn.
  repeat split.
Qed.

(** X14: the driver has no remove callback and never removes the
    attribute group it creates.  In every world the host can bring about,
    once the host has unbound the driver from a device the attributes that
    existed under the device still exist, while its driver data is gone:
    each of the three attribute callbacks then dereferences NULL instead
    of returning. *)
Theorem attributes_outlive_attachment sscanf_d w d l w' :
  reachable sscanf_d w ->
  w_sysfs w !! d = Some l ->
  driver_unbind (spisens_driver sscanf_d) d w = Some (tt, w') ->
  drv_remove (spisens_driver sscanf_d) = None /\
  w_sysfs w' !! d = Some l /\
  forall junk buf count ctrl enable,
    enable_show d junk w' = None /\
    data_show d junk w' = None /\
    enable_store sscanf_d d buf count ctrl enable w' = None.
Proof.
  intros Hr Hsys H. rewrite driver_unbind_spisens in H.
  split; [reflexivity|].
  pose proof (reachable_null_free _ _ Hr) as Hn.
  pose proof (detach_null_free _ _ _ Hn H) as Hn'.
  rewrite driver_detach_run in H. injection H as <-.
  split; [exact Hsys|].
  apply callbacks_oops_without_drvdata; [|exact Hn'].
  simpl_world. apply lookup_delete_eq.
Qed.

(** Device 0 is attached in the boot world and then unbound. *)
Lemma attributes_outlive_attachment_witness :
  exists w1 w2,
    reachable scan_dec w1 /\
    w_sysfs w1 !! 0%nat = Some ["enable"; "data"] /\
    driver_unbind (spisens_driver scan_dec) 0 w1 = Some (tt, w2) /\
    w_sysfs w2 !! 0%nat = Some ["enable"; "data"] /\
    enable_show 0 7 w2 = None.
Proof.
  pose (w1 := from_option snd boot (act scan_dec (Attach 0 7) boot)).
  pose (w2 := from_option snd boot (driver_unbind (spisens_driver scan_dec) 0 w1)).
  assert (Hp : pristine boot).
  { repeat split; cbn; unfold MAX_ERRNO; lia. }
  assert (H1 : act scan_dec (Attach 0 7) boot = Some (tt, w1))
    by (vm_compute; reflexivity).
  assert (H2 : driver_unbind (spisens_driver scan_dec) 0 w1 = Some (tt, w2))
    by (vm_compute; reflexivity).
  assert (Hr : reachable scan_dec w1)
    by (eapply reach_step; [apply reach_pristine; exact Hp | exact H1]).
  assert (Hs : w_sysfs w1 !! 0%nat = Some ["enable"; "data"])
    by (vm_compute; reflexivity).
  destruct (attributes_outlive_attachment scan_dec w1 0%nat _ w2 Hr Hs H2)
    as (_ & Hs2 & Hoops).
  exists w1, w2. split; [exact Hr|]. split; [exact Hs|]. split; [exact H2|].
  split; [exact Hs2 | exact (proj1 (Hoops 7 "" 0 0 0))].
Defined.
